(** * buildSrc/linuxsigner.js: code signing of the finished AppImage

    A shallow embedding of [signer] and [getPrivateKey] together with the
    parts of the Node.js runtime ([path], [fs], [Buffer], [process.env]) and
    of node-forge ([util.decode64], [util.hexToBytes], [pkcs12.getBags],
    [md], [privateKey.sign]) that the two functions go through.

    The cryptographic primitives themselves (SHA-512, RSASSA-PKCS1-v1_5, the
    DER and PKCS#12 decoders) are parameters of the development. *)

From Stdlib Require Import Ascii String List NArith ZArith Lia.
From Stdlib.Strings Require Import Byte.
From stdpp Require Import base option list gmap strings.
Import ListNotations.
Open Scope string_scope.
Open Scope list_scope.

(** ** Node's [path] module (POSIX flavour)

    [linuxsigner.js] runs on the Linux build host, so [require('path')] is
    [path.posix].  The functions below follow the documented behaviour of
    [path.dirname], [path.basename], [path.normalize] and [path.join]; they
    work on the characters of the path. *)

Module Path.

Definition chars := list ascii.

Definition is_sep (c : ascii) : bool := Ascii.eqb c "/"%char.

Fixpoint skip_while (f : ascii -> bool) (l : chars) : chars :=
  match l with
  | [] => []
  | c :: l' => if f c then skip_while f l' else l
  end.

Fixpoint keep_while (f : ascii -> bool) (l : chars) : chars :=
  match l with
  | [] => []
  | c :: l' => if f c then c :: keep_while f l' else []
  end.

Definition not_sep (c : ascii) : bool := negb (is_sep c).

(** [path.basename(p)]: the scan runs from the end of the path, skips the
    trailing separators and collects the characters up to the next
    separator. *)
Definition basename_chars (p : chars) : chars :=
  rev (keep_while not_sep (skip_while is_sep (rev p))).

(** [path.dirname(p)]: the loop visits the indices [length p - 1] down to
    [1]; index [0] only decides [hasRoot]. *)
Definition dirname_chars (p : chars) : chars :=
  match p with
  | [] => ["."%char]
  | c0 :: body =>
      let hasRoot := is_sep c0 in
      match skip_while not_sep (skip_while is_sep (rev body)) with
      | [] => if hasRoot then ["/"%char] else ["."%char]
      | _ :: pre =>
          if hasRoot && Nat.eqb (length pre) 0
          then ["/"%char; "/"%char]
          else c0 :: rev pre
      end
  end.

(** The segments of a path: the text between separators. *)
Fixpoint split (p : chars) : list chars :=
  match p with
  | [] => [[]]
  | c :: p' =>
      if is_sep c then [] :: split p'
      else match split p' with
           | [] => [[c]]
           | s :: ss => (c :: s) :: ss
           end
  end.

Fixpoint unsplit (segs : list chars) : chars :=
  match segs with
  | [] => []
  | [s] => s
  | s :: rest => s ++ "/"%char :: unsplit rest
  end.

Definition is_dot (s : chars) : bool :=
  match s with [c] => Ascii.eqb c "."%char | _ => false end.

Definition is_dotdot (s : chars) : bool :=
  match s with
  | [c1; c2] => Ascii.eqb c1 "."%char && Ascii.eqb c2 "."%char
  | _ => false
  end.

Definition is_empty (s : chars) : bool :=
  match s with [] => true | _ => false end.

(** One segment of [normalizeString]: [stack] holds the segments kept so
    far, the last one first. *)
Definition norm_step (allowAboveRoot : bool) (stack : list chars) (s : chars)
  : list chars :=
  if is_empty s || is_dot s then stack
  else if is_dotdot s then
    match stack with
    | t :: stack' =>
        if is_dotdot t
        then (if allowAboveRoot then s :: stack else stack)
        else stack'
    | [] => if allowAboveRoot then [s] else []
    end
  else s :: stack.

Definition normalizeString (allowAboveRoot : bool) (p : chars) : chars :=
  unsplit (rev (fold_left (norm_step allowAboveRoot) (split p) [])).

Definition starts_with_sep (p : chars) : bool :=
  match p with c :: _ => is_sep c | [] => false end.

Definition ends_with_sep (p : chars) : bool := starts_with_sep (rev p).

Definition normalize_chars (p : chars) : chars :=
  match p with
  | [] => ["."%char]
  | _ =>
      let isAbsolute := starts_with_sep p in
      let trailingSeparator := ends_with_sep p in
      let r := normalizeString (negb isAbsolute) p in
      match r with
      | [] =>
          if isAbsolute then ["/"%char]
          else if trailingSeparator then ["."%char; "/"%char] else ["."%char]
      | _ =>
          (if isAbsolute then ["/"%char] else [])
            ++ r ++ (if trailingSeparator then ["/"%char] else [])
      end
  end.

(** [path.join(a, b)]: the non-empty arguments are glued with a separator
    and the result is normalized. *)
Definition join_chars (a b : chars) : chars :=
  match a, b with
  | [], [] => ["."%char]
  | [], _ => normalize_chars b
  | _, [] => normalize_chars a
  | _, _ => normalize_chars (a ++ "/"%char :: b)
  end.

Definition lift1 (f : chars -> chars) (p : string) : string :=
  string_of_list_ascii (f (list_ascii_of_string p)).

Definition basename : string -> string := lift1 basename_chars.
Definition dirname : string -> string := lift1 dirname_chars.
Definition normalize : string -> string := lift1 normalize_chars.
Definition join (a b : string) : string :=
  string_of_list_ascii
    (join_chars (list_ascii_of_string a) (list_ascii_of_string b)).

Definition ends_with_slash (p : string) : bool :=
  ends_with_sep (list_ascii_of_string p).

(** *** Notions used to reason about paths *)

(** No separator inside. *)
Definition sep_free (s : chars) : Prop := Forall (fun c => not_sep c = true) s.

(** A segment that [normalizeString] pushes as it is: not empty, neither
    [.] nor [..], without separator. *)
Definition regular (s : chars) : Prop :=
  is_empty s = false /\ is_dot s = false /\ is_dotdot s = false /\ sep_free s.

Definition dotdot : chars := ["."%char; "."%char].

(** The segments of a path in normal form: some [..] first, allowed only
    in a relative path, then regular segments. *)
Definition normal_segs (allowAboveRoot : bool) (segs : list chars) : Prop :=
  exists ups regs,
    segs = ups ++ regs
    /\ Forall (fun s => s = dotdot) ups
    /\ Forall regular regs
    /\ (allowAboveRoot = false -> ups = []).

(** The same for the stack of [normalizeString], last segment first: the
    stack is in normal form at every step. *)
Definition normal_stack (allowAboveRoot : bool) (stack : list chars) : Prop :=
  exists regs ups,
    stack = regs ++ ups
    /\ Forall regular regs
    /\ Forall (fun s => s = dotdot) ups
    /\ (allowAboveRoot = false -> ups = []).

(** A name: what can stand between two separators of a normal path. *)
Definition name_like (s : chars) : Prop := s <> [] /\ sep_free s.

Definition root (absolute : bool) : chars :=
  if absolute then ["/"%char] else [].

End Path.


(** ** JavaScript values used by the signer

    A Node [Buffer] is a list of bytes.  A JavaScript string is a list of
    UTF-16 code units; the strings that carry binary data ("binary" and
    "base64" encodings) use one code unit per byte or per base64 digit. *)

Open Scope Z_scope.

Definition Buffer := list byte.
Definition jsstr := list Z.

Definition byte_to_Z (b : byte) : Z := Z.of_N (Byte.to_N b).

Definition byte_of_Z (z : Z) : byte :=
  default x00 (Byte.of_N (Z.to_N (z mod 256))).

(** [buf.toString('binary')]: one character per byte (latin1). *)
Definition Buffer_toString_binary (b : Buffer) : jsstr := map byte_to_Z b.

(** [Buffer.from(s, 'binary')]: the low eight bits of every code unit. *)
Definition Buffer_from_binary (s : jsstr) : Buffer := map byte_of_Z s.

(** The base64 alphabet: the character code of the digit with value [v]. *)
Definition base64_char (v : Z) : Z :=
  if v <? 26 then v + 65
  else if v <? 52 then v - 26 + 97
  else if v <? 62 then v - 52 + 48
  else if v =? 62 then 43
  else 47.

Definition pad_char : Z := 61.

(** [buf.toString('base64')]: three bytes give four digits; a final group
    of one or two bytes is padded with [=]. *)
Fixpoint Buffer_toString_base64 (b : Buffer) : jsstr :=
  match b with
  | [] => []
  | [b1] =>
      let n1 := byte_to_Z b1 in
      [ base64_char (Z.shiftr n1 2);
        base64_char (Z.shiftl (Z.land n1 3) 4);
        pad_char; pad_char ]
  | [b1; b2] =>
      let n1 := byte_to_Z b1 in
      let n2 := byte_to_Z b2 in
      [ base64_char (Z.shiftr n1 2);
        base64_char (Z.lor (Z.shiftl (Z.land n1 3) 4) (Z.shiftr n2 4));
        base64_char (Z.shiftl (Z.land n2 15) 2);
        pad_char ]
  | b1 :: b2 :: b3 :: rest =>
      let n1 := byte_to_Z b1 in
      let n2 := byte_to_Z b2 in
      let n3 := byte_to_Z b3 in
      base64_char (Z.shiftr n1 2)
      :: base64_char (Z.lor (Z.shiftl (Z.land n1 3) 4) (Z.shiftr n2 4))
      :: base64_char (Z.lor (Z.shiftl (Z.land n2 15) 2) (Z.shiftr n3 6))
      :: base64_char (Z.land n3 63)
      :: Buffer_toString_base64 rest
  end.

(** ** node-forge: [forge.util] *)

Module forge_util.

(** [_base64Idx]: indexed by [charCode - 43]. *)
Definition _base64Idx : list Z :=
  [ 62; -1; -1; -1; 63;
    52; 53; 54; 55; 56; 57; 58; 59; 60; 61;
    -1; -1; -1; 64; -1; -1; -1;
    0; 1; 2; 3; 4; 5; 6; 7; 8; 9; 10; 11; 12;
    13; 14; 15; 16; 17; 18; 19; 20; 21; 22; 23; 24; 25;
    -1; -1; -1; -1; -1; -1;
    26; 27; 28; 29; 30; 31; 32; 33; 34; 35; 36; 37; 38;
    39; 40; 41; 42; 43; 44; 45; 46; 47; 48; 49; 50; 51 ]%Z.

(** [_base64Idx[c - 43]], where [c] is [NaN] ([None]) when [charCodeAt]
    reads past the end; [None] is [undefined]. *)
Definition idx (c : option Z) : option Z :=
  match c with
  | None => None
  | Some c => if (c <? 43)%Z then None else nth_error _base64Idx (Z.to_nat (c - 43))
  end.

(** The character class [[A-Za-z0-9+/=]] of the filter in [decode64]. *)
Definition is_base64_char (c : Z) : bool :=
  ((65 <=? c) && (c <=? 90) || (97 <=? c) && (c <=? 122)
   || (48 <=? c) && (c <=? 57) || (c =? 43) || (c =? 47) || (c =? 61))%Z.

(** The operands of the bit operators: [undefined] converts to [0]; the
    results of the left shifts are wrapped to 32 bits. *)
Definition toInt32 (z : Z) : Z := ((z + 2147483648) mod 4294967296 - 2147483648)%Z.
Definition num (o : option Z) : Z := default 0%Z o.
Definition shl (a k : Z) : Z := toInt32 (Z.shiftl a k).
Definition fromCharCode (z : Z) : Z := (z mod 65536)%Z.

Definition is64 (o : option Z) : bool :=
  match o with Some 64%Z => true | _ => false end.

(** One turn of the [while] loop of [decode64]: four digits in, one to
    three characters out. *)
Definition decode_group (c1 c2 c3 c4 : option Z) : jsstr :=
  let enc1 := idx c1 in
  let enc2 := idx c2 in
  let enc3 := idx c3 in
  let enc4 := idx c4 in
  fromCharCode (Z.lor (shl (num enc1) 2) (Z.shiftr (num enc2) 4))
  :: (if is64 enc3 then []
      else fromCharCode (Z.lor (shl (Z.land (num enc2) 15) 4) (Z.shiftr (num enc3) 2))
           :: (if is64 enc4 then []
               else [fromCharCode (Z.lor (shl (Z.land (num enc3) 3) 6) (num enc4))])).

Fixpoint decode_loop (input : jsstr) : jsstr :=
  match input with
  | [] => []
  | [c1] => decode_group (Some c1) None None None
  | [c1; c2] => decode_group (Some c1) (Some c2) None None
  | [c1; c2; c3] => decode_group (Some c1) (Some c2) (Some c3) None
  | c1 :: c2 :: c3 :: c4 :: rest =>
      decode_group (Some c1) (Some c2) (Some c3) (Some c4) ++ decode_loop rest
  end.

(** [forge.util.decode64(input)] *)
Definition decode64 (input : jsstr) : jsstr :=
  decode_loop (List.filter is_base64_char input).

(** [parseInt(s, 16)] on a string of at most two hexadecimal digits. *)
Definition hex_digit (c : ascii) : option Z :=
  let n := Z.of_N (N_of_ascii c) in
  if ((48 <=? n) && (n <=? 57))%Z then Some (n - 48)%Z
  else if ((65 <=? n) && (n <=? 70))%Z then Some (n - 55)%Z
  else if ((97 <=? n) && (n <=? 102))%Z then Some (n - 87)%Z
  else None.

Definition parseInt16 (s : list ascii) : option Z :=
  match s with
  | [] => None
  | c1 :: s' =>
      match hex_digit c1 with
      | None => None
      | Some d1 =>
          match s' with
          | c2 :: _ =>
              match hex_digit c2 with
              | Some d2 => Some (16 * d1 + d2)%Z
              | None => Some d1
              end
          | [] => Some d1
          end
      end
  end.

Fixpoint hex_pairs (s : list ascii) : jsstr :=
  match s with
  | [] => []
  | [c1] => [fromCharCode (num (parseInt16 [c1]))]
  | c1 :: c2 :: rest => fromCharCode (num (parseInt16 [c1; c2])) :: hex_pairs rest
  end.

(** [forge.util.hexToBytes(hex)]: with an odd number of digits the first
    one is converted alone. *)
Definition hexToBytes (hex : string) : jsstr :=
  let s := list_ascii_of_string hex in
  if Nat.odd (length s)
  then match s with
       | c :: rest => fromCharCode (num (parseInt16 [c])) :: hex_pairs rest
       | [] => []
       end
  else hex_pairs s.

End forge_util.

(** ** node-forge: [forge.pkcs12]

    The decoded PFX as [getBags] sees it: [p12.safeContents] is a list of
    safe contents, each with its [safeBags].  A bag carries its type, its
    attributes and, for a key bag whose key could be decoded, the [key];
    [attributes.localKeyId] is the array of the attribute's values. *)

Module pkcs12.

Section Bags.
Context {K : Type}.

Record SafeBag := {
  bag_type : string;
  localKeyId : option (list jsstr);
  key : option K
}.

Record SafeContents := {
  encrypted : bool;
  safeBags : list SafeBag
}.

Definition Pfx := list SafeContents.

(** The test of [_getBagsByAttribute]:
    [bag.attributes[attrName] !== undefined &&
     bag.attributes[attrName].indexOf(attrValue) >= 0]. *)
Definition has_localKeyId (attrValue : jsstr) (bag : SafeBag) : bool :=
  match localKeyId bag with
  | None => false
  | Some values => bool_decide (attrValue ∈ values)
  end.

(** [p12.getBags({localKeyIdHex: hex})["localKeyId"]]: every bag, of any
    type, with the attribute value, in the order of the file. *)
Definition getBags_localKeyIdHex (p12 : Pfx) (hex : string) : list SafeBag :=
  List.filter (has_localKeyId (forge_util.hexToBytes hex))
              (concat (map safeBags p12)).

End Bags.

Arguments SafeBag : clear implicits.
Arguments SafeContents : clear implicits.
Arguments Pfx : clear implicits.

End pkcs12.

(** ** The primitives behind node-forge *)

Class Primitives := {
  PrivateKey : Type;
  Asn1 : Type;
  (** [forge.asn1.fromDer]: [None] when it throws. *)
  asn1_fromDer : jsstr -> option Asn1;
  (** [forge.pkcs12.pkcs12FromAsn1(asn1, password)]: [None] when it throws. *)
  pkcs12FromAsn1 : Asn1 -> string -> option (pkcs12.Pfx PrivateKey);
  (** SHA-512 of a byte sequence. *)
  SHA512 : Buffer -> Buffer;
  (** RSASSA-PKCS1-v1_5 signature of a SHA-512 digest: [None] when the
      operation fails. *)
  RSASSA_PKCS1_V1_5_SIGN : PrivateKey -> Buffer -> option Buffer
}.

(** ** The world of one run: environment, file system, console *)

Inductive fs_op := OpRead | OpWrite.

Inductive error :=
  | JsError (msg : string)
  | FsError (op : fs_op) (path : string)
  | ForgeError (fn : string)
  | TypeError (msg : string).

Inductive event :=
  | EvLog (args : list string)
  | EvRead (path : string)
  | EvWrite (path : string) (data : Buffer).

(** What a [writeFileSync] on a path does: it completes; it is refused when
    the file is opened (nothing changes); or it fails after [n] bytes have
    reached the file. *)
Inductive write_outcome := WriteDone | WriteRefused | WriteTorn (n : nat).

(** The file system holds files under their canonical names; [realpath]
    gives the canonical name of the file that a path names: another
    spelling of a path and a link name the same file as the path they
    stand for.  For a path that names no file yet it is the name under
    which a write creates the file.  Reading and writing files does not
    change the names. *)
Record World := {
  env : gmap string string;
  realpath : string -> string;
  files : gmap string Buffer;
  write_oracle : string -> write_outcome;
  trace : list event
}.

Definition log_event (ev : event) (w : World) : World :=
  {| env := env w; realpath := realpath w; files := files w;
     write_oracle := write_oracle w; trace := trace w ++ [ev] |}.

Definition set_file (name : string) (data : Buffer) (w : World) : World :=
  {| env := env w; realpath := realpath w; files := <[name := data]> (files w);
     write_oracle := write_oracle w; trace := trace w |}.

Inductive result (A : Type) :=
  | Return (a : A)
  | Throw (e : error).
Arguments Return {A} a.
Arguments Throw {A} e.

Definition M (A : Type) : Type := World -> result A * World.

Definition ret {A} (a : A) : M A := fun w => (Return a, w).

Definition throw {A} (e : error) : M A := fun w => (Throw e, w).

Definition bind {A B} (m : M A) (k : A -> M B) : M B :=
  fun w =>
    match m w with
    | (Return a, w') => k a w'
    | (Throw e, w') => (Throw e, w')
    end.

Notation "x <- m ;; k" := (bind m (fun x => k))
  (at level 100, m at next level, right associativity).
Notation "m ;;; k" := (bind m (fun _ => k))
  (at level 100, right associativity).

(** [console.log(...)] *)
Definition console_log (args : list string) : M unit :=
  fun w => (Return tt, log_event (EvLog args) w).

(** [process.env.NAME]: [None] is [undefined]. *)
Definition process_env (name : string) : M (option string) :=
  fun w => (Return (env w !! name), w).

(** [fs.readFileSync(path)] *)
Definition readFileSync (path : string) : M Buffer :=
  fun w =>
    let w' := log_event (EvRead path) w in
    match files w !! realpath w path with
    | Some data => (Return data, w')
    | None => (Throw (FsError OpRead path), w')
    end.

(** [fs.writeFileSync(path, data, null)]: the file is opened for writing,
    truncated, and the data is written to it. *)
Definition writeFileSync (path : string) (data : Buffer) : M unit :=
  fun w =>
    let w' := log_event (EvWrite path data) w in
    match write_oracle w path with
    | WriteDone => (Return tt, set_file (realpath w path) data w')
    | WriteRefused => (Throw (FsError OpWrite path), w')
    | WriteTorn n =>
        (Throw (FsError OpWrite path), set_file (realpath w path) (take n data) w')
    end.

(** A value of JavaScript is falsy when it is [undefined] or the empty
    string (an environment variable holds nothing else). *)
Definition falsy (v : option string) : bool :=
  match v with
  | None => true
  | Some s => bool_decide (s = "")
  end.

(** ** linuxsigner.js *)

Section Signer.
Context `{Prim : Primitives}.

(** A call into node-forge that may throw. *)
Definition forge_call {A} (fn : string) (r : option A) : M A :=
  match r with
  | Some a => ret a
  | None => throw (ForgeError fn)
  end.

(** [forge.md.sha512.create()] and [md.update(msg)]: the message digest
    object holds the bytes it was fed, one per character. *)
Definition md_state := jsstr.
Definition md_sha512_create : md_state := [].
Definition md_update (md : md_state) (msg : jsstr) : md_state := md ++ msg.
Definition md_digest (md : md_state) : Buffer := SHA512 (Buffer_from_binary md).

(** [privateKey.sign(md)]: the signature comes back as a binary string;
    [privateKey] may be [undefined]. *)
Definition privateKey_sign (privateKey : option PrivateKey) (md : md_state)
  : M jsstr :=
  match privateKey with
  | None => throw (TypeError "Cannot read property 'sign' of undefined")
  | Some k =>
      sig <- forge_call "privateKey.sign" (RSASSA_PKCS1_V1_5_SIGN k (md_digest md)) ;;
      ret (Buffer_toString_binary sig)
  end.

Definition localKeyIdHex : string := "6FEFEE4A93634B95DD82977143D69665CA9180D2".

Definition missing_env_message : string :=
  "can't sign linux client, missing LINUX_CSC_LINK or LINUX_CSC_PASSWORD env vars".

(** [bag[0].key] *)
Definition first_bag_key (bag : list (pkcs12.SafeBag PrivateKey))
  : M (option PrivateKey) :=
  match bag with
  | [] => throw (TypeError "Cannot read property 'key' of undefined")
  | b :: _ => ret (pkcs12.key b)
  end.

Definition getPrivateKey : M (option PrivateKey) :=
  lnk <- process_env "LINUX_CSC_LINK" ;;
  pass <- process_env "LINUX_CSC_KEY_PASSWORD" ;;
  if falsy lnk || falsy pass
  then throw (JsError missing_env_message)
  else
    p12file <- readFileSync (default "" lnk) ;;
    let p12b64 := Buffer_toString_base64 p12file in
    let p12Der := forge_util.decode64 p12b64 in
    p12Asn1 <- forge_call "asn1.fromDer" (asn1_fromDer p12Der) ;;
    p12 <- forge_call "pkcs12.pkcs12FromAsn1"
             (pkcs12FromAsn1 p12Asn1 (default "" pass)) ;;
    let bag := pkcs12.getBags_localKeyIdHex p12 localKeyIdHex in
    first_bag_key bag.

(** What [getPrivateKey] makes of the bytes of the bundle and of the pass
    phrase, once the configuration is there and the bundle is read. *)
Definition key_of_bundle (data : Buffer) (pass : string)
  : result (option PrivateKey) :=
  match asn1_fromDer (Buffer_toString_binary data) with
  | None => Throw (ForgeError "asn1.fromDer")
  | Some p12Asn1 =>
      match pkcs12FromAsn1 p12Asn1 pass with
      | None => Throw (ForgeError "pkcs12.pkcs12FromAsn1")
      | Some p12 =>
          match pkcs12.getBags_localKeyIdHex p12 localKeyIdHex with
          | [] => Throw (TypeError "Cannot read property 'key' of undefined")
          | b :: _ => Return (pkcs12.key b)
          end
      end
  end.

(** The path of the signature file. *)
Definition sigOutPath (filePath : string) : string :=
  let dir := Path.dirname filePath in
  let filename := Path.basename filePath in
  Path.join dir (filename +:+ "-sig.bin").

Definition signer (filePath : string) : M unit :=
  console_log ["Signing"; Path.basename filePath; "..."] ;;;
  fileData <- readFileSync filePath ;;
  let sigOut := sigOutPath filePath in
  privateKey <- getPrivateKey ;;
  let md := md_update md_sha512_create (Buffer_toString_binary fileData) in
  sig_str <- privateKey_sign privateKey md ;;
  let sig := Buffer_from_binary sig_str in
  writeFileSync sigOut sig.

End Signer.

(** ** Notions used in the statements *)

(** The first event of a run: the progress message. *)
Definition announce (filePath : string) : event :=
  EvLog ["Signing"; Path.basename filePath; "..."].

Definition absent_or_empty (v : option string) : Prop :=
  v = None \/ v = Some "".

(** One of the two configuration values is absent or empty. *)
Definition config_missing (w : World) : Prop :=
  absent_or_empty (env w !! "LINUX_CSC_LINK")
  \/ absent_or_empty (env w !! "LINUX_CSC_KEY_PASSWORD").

Definition is_write (ev : event) : Prop :=
  match ev with EvWrite _ _ => True | _ => False end.

(** The failures of [signer] that come before [writeFileSync]: a file that
    cannot be read (the target or the bundle), the missing configuration,
    a bundle that node-forge rejects, no bag with the identifier, a bag
    without key, a signing operation that fails. *)
Inductive early_failure : error -> Prop :=
  | unreadable_file (path : string) : early_failure (FsError OpRead path)
  | missing_configuration : early_failure (JsError missing_env_message)
  | bundle_not_der : early_failure (ForgeError "asn1.fromDer")
  | bundle_not_pfx : early_failure (ForgeError "pkcs12.pkcs12FromAsn1")
  | key_bag_missing :
      early_failure (TypeError "Cannot read property 'key' of undefined")
  | key_missing :
      early_failure (TypeError "Cannot read property 'sign' of undefined")
  | signing_failed : early_failure (ForgeError "privateKey.sign").

Definition suffix_chars : Path.chars := list_ascii_of_string "-sig.bin".

(** [sigOutPath] on the characters of the path. *)
Definition sigOutPath_chars (p : Path.chars) : Path.chars :=
  Path.join_chars (Path.dirname_chars p) (Path.basename_chars p ++ suffix_chars).

(** The digits of a group of bytes, as [toString('base64')] computes them,
    and the characters that [decode_group] computes from four digits. *)
Module Base64.

Definition digit1 (n1 : Z) : Z := Z.shiftr n1 2.
Definition digit2 (n1 n2 : Z) : Z := Z.lor (Z.shiftl (Z.land n1 3) 4) (Z.shiftr n2 4).
Definition digit3 (n2 n3 : Z) : Z := Z.lor (Z.shiftl (Z.land n2 15) 2) (Z.shiftr n3 6).
Definition digit4 (n3 : Z) : Z := Z.land n3 63.
Definition digit2_last (n1 : Z) : Z := Z.shiftl (Z.land n1 3) 4.
Definition digit3_last (n2 : Z) : Z := Z.shiftl (Z.land n2 15) 2.

Definition is_digit (v : Z) : bool := (0 <=? v) && (v <? 64).

Definition char1 (e1 e2 : Z) : Z :=
  forge_util.fromCharCode (Z.lor (forge_util.shl e1 2) (Z.shiftr e2 4)).
Definition char2 (e2 e3 : Z) : Z :=
  forge_util.fromCharCode
    (Z.lor (forge_util.shl (Z.land e2 15) 4) (Z.shiftr e3 2)).
Definition char3 (e3 e4 : Z) : Z :=
  forge_util.fromCharCode (Z.lor (forge_util.shl (Z.land e3 3) 6) e4).

(** The numbers below [n], to check a fact on every byte or digit. *)
Definition upto (n : nat) : list Z := map Z.of_nat (seq 0 n).

End Base64.

(** ** A stand-in for node-forge, to run the signer on concrete worlds

    Keys are numbers, the DER decoder accepts what starts with the SEQUENCE
    tag, the PFX decoder wants the pass phrase [secret] and finds the bags
    according to the second byte, the digest is the length of the message
    and signing prepends the key to the digest. *)

Module Fixture.

Definition signing_bag : pkcs12.SafeBag nat :=
  {| pkcs12.bag_type := "1.2.840.113549.1.12.10.1.2";
     pkcs12.localKeyId := Some [forge_util.hexToBytes localKeyIdHex];
     pkcs12.key := Some 7%nat |}.

Definition other_bag : pkcs12.SafeBag nat :=
  {| pkcs12.bag_type := "1.2.840.113549.1.12.10.1.2";
     pkcs12.localKeyId := Some [[1; 2; 3]];
     pkcs12.key := Some 9%nat |}.

Definition fromDer (der : jsstr) : option jsstr :=
  match der with
  | 48 :: _ => Some der
  | _ => None
  end.

Definition pfx_of (asn1 : jsstr) (password : string) : option (pkcs12.Pfx nat) :=
  if bool_decide (password = "secret")
  then match asn1 with
       | _ :: 1 :: _ =>
           Some [ {| pkcs12.encrypted := true; pkcs12.safeBags := [other_bag] |};
                  {| pkcs12.encrypted := true; pkcs12.safeBags := [signing_bag] |} ]
       | _ => Some [ {| pkcs12.encrypted := true; pkcs12.safeBags := [other_bag] |} ]
       end
  else None.

Definition digest (b : Buffer) : Buffer :=
  [byte_of_Z (Z.of_nat (length b))].

Definition sign_with (k : nat) (d : Buffer) : option Buffer :=
  Some (byte_of_Z (Z.of_nat k) :: d).

Definition forge : Primitives :=
  {| PrivateKey := nat;
     Asn1 := jsstr;
     asn1_fromDer := fromDer;
     pkcs12FromAsn1 := pfx_of;
     SHA512 := digest;
     RSASSA_PKCS1_V1_5_SIGN := sign_with |}.

Definition no_faults : string -> write_outcome := fun _ => WriteDone.

(** No links and one spelling per file: every path is its own name. *)
Definition plain_names : string -> string := fun p => p.

Definition artifact : string := "/a/b/artifact.bin".
Definition bundle : string := "/keys/codesign.pfx".

Definition good_env : gmap string string :=
  <["LINUX_CSC_LINK" := bundle]> (<["LINUX_CSC_KEY_PASSWORD" := "secret"]> ∅).

(** A world with the artifact and a bundle that holds the signing key. *)
Definition world : World :=
  {| env := good_env;
     files := <[artifact := [x01; x02; x03]]> (<[bundle := [x30; x01; x00]]> ∅);
     realpath := plain_names;
     write_oracle := no_faults;
     trace := [] |}.

(** The same with a bundle in which no bag has the identifier. *)
Definition world_renewed_cert : World :=
  {| env := good_env;
     files := <[artifact := [x01; x02; x03]]> (<[bundle := [x30; x02; x00]]> ∅);
     realpath := plain_names;
     write_oracle := no_faults;
     trace := [] |}.

(** The same without the pass phrase. *)
Definition world_no_password : World :=
  {| env := <["LINUX_CSC_LINK" := bundle]> ∅;
     files := files world;
     realpath := plain_names;
     write_oracle := no_faults;
     trace := [] |}.

(** A second world: the same bytes under another name, in another place. *)
Definition artifact_copy : string := "/tmp/copy.bin".

Definition world_copy : World :=
  {| env := good_env;
     files := <[artifact_copy := [x01; x02; x03]]> (<[bundle := [x30; x01; x00]]> ∅);
     realpath := plain_names;
     write_oracle := no_faults;
     trace := [EvLog ["earlier"]] |}.

(** A world in which the artifact was signed before: an older signature
    file is in place. *)
Definition world_resigned : World :=
  {| env := good_env;
     files := <["/a/b/artifact.bin-sig.bin" := [x00]]> (files world);
     realpath := plain_names;
     write_oracle := no_faults;
     trace := [] |}.

(** A world in which the bundle sits where the signature goes. *)
Definition world_bundle_alias : World :=
  {| env := <["LINUX_CSC_LINK" := "/a/b/artifact.bin-sig.bin"]> good_env;
     files := <[artifact := [x01; x02; x03]]>
                (<["/a/b/artifact.bin-sig.bin" := [x30; x01; x00]]> ∅);
     realpath := plain_names;
     write_oracle := no_faults;
     trace := [] |}.

(** No configuration and no artifact. *)
Definition world_empty : World :=
  {| env := ∅; realpath := plain_names; files := ∅;
     write_oracle := no_faults; trace := [] |}.

End Fixture.

(** ** More bundles for the stand-in

    A second PFX decoder: with the second byte [3] the first bag with the
    identifier is a certificate bag, without key, and the key bag follows;
    with the second byte [4] two key bags have the identifier. *)

Module Bundles.

Definition cert_bag : pkcs12.SafeBag nat :=
  {| pkcs12.bag_type := "1.2.840.113549.1.12.10.1.3";
     pkcs12.localKeyId := Some [forge_util.hexToBytes localKeyIdHex];
     pkcs12.key := None |}.

Definition second_key_bag : pkcs12.SafeBag nat :=
  {| pkcs12.bag_type := "1.2.840.113549.1.12.10.1.2";
     pkcs12.localKeyId := Some [[9]; forge_util.hexToBytes localKeyIdHex];
     pkcs12.key := Some 5%nat |}.

Definition pfx_of (asn1 : jsstr) (password : string) : option (pkcs12.Pfx nat) :=
  if bool_decide (password = "secret")
  then match asn1 with
       | _ :: 3 :: _ =>
           Some [ {| pkcs12.encrypted := true; pkcs12.safeBags := [cert_bag] |};
                  {| pkcs12.encrypted := true;
                     pkcs12.safeBags := [Fixture.signing_bag] |} ]
       | _ :: 4 :: _ =>
           Some [ {| pkcs12.encrypted := true;
                     pkcs12.safeBags := [Fixture.other_bag; second_key_bag] |};
                  {| pkcs12.encrypted := true;
                     pkcs12.safeBags := [Fixture.signing_bag] |} ]
       | _ => Fixture.pfx_of asn1 password
       end
  else None.

Definition forge : Primitives :=
  {| PrivateKey := nat;
     Asn1 := jsstr;
     asn1_fromDer := Fixture.fromDer;
     pkcs12FromAsn1 := pfx_of;
     SHA512 := Fixture.digest;
     RSASSA_PKCS1_V1_5_SIGN := Fixture.sign_with |}.

Definition world_with (bundle_bytes : Buffer) (password : string) : World :=
  {| env := <["LINUX_CSC_LINK" := Fixture.bundle]>
              (<["LINUX_CSC_KEY_PASSWORD" := password]> ∅);
     files := <[Fixture.artifact := [x01; x02; x03]]>
                (<[Fixture.bundle := bundle_bytes]> ∅);
     realpath := Fixture.plain_names;
     write_oracle := Fixture.no_faults;
     trace := [] |}.

(** The certificate bag comes first. *)
Definition world_cert_first : World := world_with [x30; x03; x00] "secret".

(** Two key bags have the identifier. *)
Definition world_two_keys : World := world_with [x30; x04; x00] "secret".

(** The bundle is not DER; the pass phrase is wrong; the bundle is not
    there. *)
Definition world_not_der : World := world_with [x00; x01] "secret".
Definition world_wrong_password : World := world_with [x30; x01; x00] "guess".
Definition world_no_bundle : World :=
  {| env := env (world_with [] "secret");
     files := <[Fixture.artifact := [x01; x02; x03]]> ∅;
     realpath := Fixture.plain_names;
     write_oracle := Fixture.no_faults;
     trace := [] |}.

End Bundles.

(** ** Worlds with two names for one file *)

Module Links.

Definition signature : string := "/a/b/artifact.bin-sig.bin".

(** The bundle is given under another spelling of the signature path. *)
Definition respelled : string := "/a/b/./artifact.bin-sig.bin".

Definition world_respelled_bundle : World :=
  {| env := <["LINUX_CSC_LINK" := respelled]> Fixture.good_env;
     realpath := fun p => if bool_decide (p = respelled) then signature else p;
     files := <[Fixture.artifact := [x01; x02; x03]]>
                (<[signature := [x30; x01; x00]]> ∅);
     write_oracle := Fixture.no_faults;
     trace := [] |}.

(** The signature path is a link to the target. *)
Definition world_link_to_target : World :=
  {| env := Fixture.good_env;
     realpath := fun p => if bool_decide (p = signature) then Fixture.artifact else p;
     files := files Fixture.world;
     write_oracle := Fixture.no_faults;
     trace := [] |}.

End Links.

(** [path.isAbsolute(p)] *)
Definition isAbsolute (p : string) : bool :=
  Path.starts_with_sep (list_ascii_of_string p).

(** * Properties *)

(** ** Paths *)

Module PathFacts.
Import Path.

Lemma split_nonempty (p : chars) : split p <> [].
Proof.
  destruct p as [|c p]; simpl; [discriminate|].
  destruct (is_sep c); [discriminate|].
  destruct (split p); discriminate.
Qed.

Lemma split_app_sep (a b : chars) :
  split (a ++ "/"%char :: b) = split a ++ split b.
Proof.
  induction a as [|c a IH]; simpl; [reflexivity|].
  destruct (is_sep c); [now rewrite IH|].
  rewrite IH. pose proof (split_nonempty a) as Ha.
  destruct (split a); [contradiction|reflexivity].
Qed.

Lemma split_sep_free (s : chars) : sep_free s -> split s = [s].
Proof.
  induction 1 as [|c s Hc _ IH]; simpl; [reflexivity|].
  unfold not_sep in Hc. destruct (is_sep c); [discriminate|].
  now rewrite IH.
Qed.

Lemma split_unsplit (segs : list chars) :
  segs <> [] -> Forall sep_free segs -> split (unsplit segs) = segs.
Proof.
  induction segs as [|s segs IH]; [congruence|].
  intros _ Hall. inversion Hall as [|? ? Hs Hrest]; subst.
  destruct segs as [|t segs].
  - simpl. now apply split_sep_free.
  - change (unsplit (s :: t :: segs)) with (s ++ "/"%char :: unsplit (t :: segs)).
    rewrite split_app_sep, split_sep_free by assumption.
    rewrite IH by (assumption || discriminate). reflexivity.
Qed.

Lemma unsplit_snoc (segs : list chars) (f : chars) :
  unsplit (segs ++ [f]) =
  match segs with [] => f | _ => unsplit segs ++ "/"%char :: f end.
Proof.
  induction segs as [|s segs IH]; [reflexivity|].
  destruct segs as [|t segs]; [reflexivity|].
  change (unsplit ((s :: t :: segs) ++ [f]))
    with (s ++ "/"%char :: unsplit ((t :: segs) ++ [f])).
  rewrite IH.
  change (unsplit (s :: t :: segs)) with (s ++ "/"%char :: unsplit (t :: segs)).
  now rewrite <- app_assoc.
Qed.

Lemma norm_step_regular (above : bool) (stack : list chars) (s : chars) :
  regular s -> norm_step above stack s = s :: stack.
Proof.
  intros (He & Hd & Hdd & _). unfold norm_step. now rewrite He, Hd, Hdd.
Qed.

Lemma fold_norm_regular (above : bool) (segs stack : list chars) :
  Forall regular segs ->
  fold_left (norm_step above) segs stack = rev segs ++ stack.
Proof.
  intros Hall. revert stack.
  induction Hall as [|s segs Hs _ IH]; intros stack; simpl; [reflexivity|].
  rewrite norm_step_regular, IH, <- app_assoc by assumption. reflexivity.
Qed.

Lemma skip_while_sep_free_app (s rest : chars) :
  sep_free s -> skip_while not_sep (s ++ rest) = skip_while not_sep rest.
Proof.
  induction 1 as [|c s Hc _ IH]; simpl; [reflexivity|]. now rewrite Hc.
Qed.

Lemma keep_while_sep_free_app (s rest : chars) :
  sep_free s -> keep_while not_sep (s ++ rest) = s ++ keep_while not_sep rest.
Proof.
  induction 1 as [|c s Hc _ IH]; simpl; [reflexivity|]. now rewrite Hc, IH.
Qed.

Lemma keep_while_sep_free (l : chars) : sep_free (keep_while not_sep l).
Proof.
  induction l as [|c l IH]; simpl; [constructor|].
  destruct (not_sep c) eqn:Hc; constructor; assumption.
Qed.

Lemma sep_free_rev (s : chars) : sep_free s -> sep_free (rev s).
Proof. apply Forall_rev. Qed.

Lemma sep_free_app (s t : chars) : sep_free s -> sep_free t -> sep_free (s ++ t).
Proof. apply Forall_app_2. Qed.

Lemma basename_sep_free (p : chars) : sep_free (basename_chars p).
Proof. apply sep_free_rev, keep_while_sep_free. Qed.

Lemma skip_sep_not_sep (s : chars) :
  match s with c :: _ => not_sep c = true | [] => True end ->
  skip_while is_sep s = s.
Proof.
  destruct s as [|c s]; simpl; [reflexivity|].
  unfold not_sep. now destruct (is_sep c).
Qed.

(** The last character of a sep-free, non-empty segment is not a
    separator, so the backward scans start inside the segment. *)
Lemma rev_head_not_sep (f : chars) :
  f <> [] -> sep_free f ->
  match rev f with c :: _ => not_sep c = true | [] => True end.
Proof.
  intros Hne Hf. apply sep_free_rev in Hf.
  destruct (rev f) as [|c r] eqn:E; [exact I|]. now inversion Hf.
Qed.

Lemma basename_last_segment (pre f : chars) :
  f <> [] -> sep_free f ->
  basename_chars f = f /\ basename_chars (pre ++ "/"%char :: f) = f.
Proof.
  intros Hne Hf. unfold basename_chars.
  pose proof (rev_head_not_sep f Hne Hf) as Hhd.
  pose proof (sep_free_rev _ Hf) as Hrf.
  split.
  - rewrite skip_sep_not_sep by assumption.
    rewrite <- (app_nil_r (rev f)) at 1.
    rewrite keep_while_sep_free_app by assumption. simpl.
    now rewrite app_nil_r, rev_involutive.
  - rewrite rev_app_distr. simpl. rewrite <- !app_assoc. simpl.
    rewrite skip_sep_not_sep.
    + rewrite keep_while_sep_free_app by assumption. simpl.
      now rewrite app_nil_r, rev_involutive.
    + destruct (rev f) as [|c r] eqn:E; simpl in *; [|assumption].
      apply (f_equal (@rev ascii)) in E. rewrite rev_involutive in E.
      now subst f.
Qed.

End PathFacts.

Module SigPathFacts.
Import Path PathFacts.

Lemma list_ascii_of_string_app (a b : string) :
  list_ascii_of_string (a +:+ b) = list_ascii_of_string a ++ list_ascii_of_string b.
Proof. induction a as [|c a IH]; simpl; [reflexivity|]. now rewrite IH. Qed.

Lemma string_of_list_ascii_app (a b : chars) :
  string_of_list_ascii (a ++ b) = string_of_list_ascii a +:+ string_of_list_ascii b.
Proof. induction a as [|c a IH]; simpl; [reflexivity|]. now rewrite IH. Qed.

Lemma sigOutPath_chars_eq (p : string) :
  sigOutPath p = string_of_list_ascii (sigOutPath_chars (list_ascii_of_string p)).
Proof.
  unfold sigOutPath, Path.join, Path.dirname, Path.basename, lift1, sigOutPath_chars.
  now rewrite list_ascii_of_string_app, !list_ascii_of_string_of_list_ascii.
Qed.

Lemma suffix_sep_free : sep_free suffix_chars.
Proof. repeat constructor. Qed.

Lemma suffixed_regular (b : chars) : sep_free b -> regular (b ++ suffix_chars).
Proof.
  intros Hb. repeat split.
  - now destruct b.
  - destruct b as [|c1 [|c2 b]]; reflexivity.
  - destruct b as [|c1 [|c2 [|c3 b]]]; reflexivity.
  - apply sep_free_app; [assumption|apply suffix_sep_free].
Qed.

Lemma regular_nonempty (f : chars) : regular f -> f <> [].
Proof. intros (He & _) ->. discriminate. Qed.

Lemma dirname_nonempty (p : chars) : dirname_chars p <> [].
Proof.
  destruct p as [|c0 body]; simpl; [discriminate|].
  destruct (skip_while not_sep (skip_while is_sep (rev body))) as [|x pre].
  - destruct (is_sep c0); discriminate.
  - destruct (is_sep c0 && Nat.eqb (length pre) 0); discriminate.
Qed.

Lemma ends_with_sep_segment (x f : chars) :
  f <> [] -> sep_free f -> ends_with_sep (x ++ f) = false.
Proof.
  intros Hne Hf. unfold ends_with_sep. rewrite rev_app_distr.
  pose proof (rev_head_not_sep f Hne Hf) as Hhd.
  destruct (rev f) as [|c r] eqn:E.
  - apply (f_equal (@rev ascii)) in E. rewrite rev_involutive in E. now subst f.
  - simpl. unfold not_sep in Hhd. now destruct (is_sep c).
Qed.

Lemma unsplit_snoc_nonempty (segs : list chars) (f : chars) :
  f <> [] -> unsplit (segs ++ [f]) <> [].
Proof.
  intros Hne. rewrite unsplit_snoc. destruct segs; [assumption|].
  intros E. now apply app_eq_nil in E as [_ E].
Qed.

Lemma normalize_chars_kept (p : chars) :
  p <> [] -> ends_with_sep p = false ->
  normalizeString (negb (starts_with_sep p)) p <> [] ->
  normalize_chars p =
  (if starts_with_sep p then ["/"%char] else [])
    ++ normalizeString (negb (starts_with_sep p)) p.
Proof.
  intros Hp Hends Hr. destruct p as [|c p]; [congruence|].
  unfold normalize_chars. cbv zeta. rewrite Hends.
  destruct (normalizeString _ _); [congruence|]. now rewrite app_nil_r.
Qed.

Lemma normalizeString_dir_file (above : bool) (d f : chars) :
  regular f ->
  normalizeString above (d ++ "/"%char :: f) =
  unsplit (rev (fold_left (norm_step above) (split d) []) ++ [f]).
Proof.
  intros Hf. unfold normalizeString.
  rewrite split_app_sep, (split_sep_free f) by apply Hf.
  rewrite fold_left_app.
  change (fold_left (norm_step above) [f] ?st) with (norm_step above st f).
  now rewrite norm_step_regular by assumption.
Qed.

(** [path.join(d, f)] for a directory [d] and a file name [f] that is a
    regular segment: the segments of [d] are normalized and [f] follows. *)
Lemma normalize_dir_file (d f : chars) :
  d <> [] -> regular f ->
  normalize_chars (d ++ "/"%char :: f) =
  (if starts_with_sep d then ["/"%char] else [])
    ++ unsplit (rev (fold_left (norm_step (negb (starts_with_sep d))) (split d) [])
                ++ [f]).
Proof.
  intros Hd Hf. pose proof (regular_nonempty f Hf) as Hne.
  assert (Hs : starts_with_sep (d ++ "/"%char :: f) = starts_with_sep d)
    by (destruct d; [congruence|reflexivity]).
  rewrite normalize_chars_kept; rewrite ?Hs.
  - now rewrite normalizeString_dir_file.
  - now destruct d.
  - change (d ++ "/"%char :: f) with (d ++ ["/"%char] ++ f).
    rewrite app_assoc. apply ends_with_sep_segment; [assumption|apply Hf].
  - rewrite normalizeString_dir_file by assumption.
    now apply unsplit_snoc_nonempty.
Qed.

Lemma sigOutPath_chars_normal (p : chars) :
  let d := dirname_chars p in
  sigOutPath_chars p =
  (if starts_with_sep d then ["/"%char] else [])
    ++ unsplit (rev (fold_left (norm_step (negb (starts_with_sep d))) (split d) [])
                ++ [basename_chars p ++ suffix_chars]).
Proof.
  intros d. unfold sigOutPath_chars. fold d.
  pose proof (dirname_nonempty p) as Hd. fold d in Hd.
  pose proof (suffixed_regular _ (basename_sep_free p)) as Hf.
  pose proof (regular_nonempty _ Hf) as Hne.
  unfold join_chars. destruct d as [|c d]; [congruence|].
  destruct (basename_chars p ++ suffix_chars) as [|x f] eqn:E; [congruence|].
  now apply normalize_dir_file.
Qed.

Lemma basename_sigOutPath_chars (p : chars) :
  basename_chars (sigOutPath_chars p) = basename_chars p ++ suffix_chars.
Proof.
  rewrite sigOutPath_chars_normal. cbv zeta.
  pose proof (suffixed_regular _ (basename_sep_free p)) as Hf.
  pose proof (regular_nonempty _ Hf) as Hne.
  destruct Hf as (_ & _ & _ & Hsf).
  set (f := basename_chars p ++ suffix_chars) in *.
  set (segs := rev _). rewrite unsplit_snoc.
  destruct (basename_last_segment [] f Hne Hsf) as [H1 H2].
  destruct (starts_with_sep (dirname_chars p)); destruct segs as [|s segs'].
  - exact H2.
  - rewrite app_assoc. now apply basename_last_segment.
  - exact H1.
  - simpl app at 1. now apply basename_last_segment.
Qed.

Lemma basename_sigOutPath (p : string) :
  Path.basename (sigOutPath p) = Path.basename p +:+ "-sig.bin".
Proof.
  rewrite sigOutPath_chars_eq. unfold Path.basename, lift1.
  rewrite list_ascii_of_string_of_list_ascii, basename_sigOutPath_chars.
  now rewrite string_of_list_ascii_app.
Qed.

Lemma string_app_length (a b : string) :
  String.length (a +:+ b) = (String.length a + String.length b)%nat.
Proof. induction a as [|c a IH]; simpl; [reflexivity|]. now rewrite IH. Qed.

(** The signature is never written over the file that is signed. *)
Lemma sigOutPath_fresh (p : string) : sigOutPath p <> p.
Proof.
  intros E. pose proof (basename_sigOutPath p) as H. rewrite E in H.
  apply (f_equal String.length) in H. rewrite string_app_length in H.
  simpl in H. lia.
Qed.


Lemma skip_sep_sep_free (s : chars) : sep_free s -> skip_while is_sep s = s.
Proof.
  intros Hs. apply skip_sep_not_sep. destruct s; [exact I|]. now inversion Hs.
Qed.

Lemma skip_not_sep_sep_free (s : chars) : sep_free s -> skip_while not_sep s = [].
Proof.
  intros Hs. rewrite <- (app_nil_r s). now rewrite skip_while_sep_free_app.
Qed.

Lemma dirname_single (l : chars) :
  l <> [] -> sep_free l -> dirname_chars l = ["."%char].
Proof.
  intros Hne Hl. destruct l as [|c0 body]; [congruence|].
  inversion Hl as [|? ? Hc Hbody]; subst. simpl.
  rewrite skip_sep_sep_free, skip_not_sep_sep_free by now apply sep_free_rev.
  unfold not_sep in Hc. now destruct (is_sep c0).
Qed.

Lemma dirname_root_single (l : chars) :
  sep_free l -> dirname_chars ("/"%char :: l) = ["/"%char].
Proof.
  intros Hl. simpl.
  now rewrite skip_sep_sep_free, skip_not_sep_sep_free by now apply sep_free_rev.
Qed.

Lemma dirname_dir_file (x l : chars) :
  x <> [] -> x <> ["/"%char] -> l <> [] -> sep_free l ->
  dirname_chars (x ++ "/"%char :: l) = x.
Proof.
  intros Hx Hroot Hne Hl. destruct x as [|c0 x']; [congruence|].
  simpl. rewrite rev_app_distr. simpl. rewrite <- !app_assoc. simpl.
  rewrite skip_sep_not_sep.
  2:{ pose proof (rev_head_not_sep l Hne Hl) as Hhd.
      destruct (rev l) as [|c r] eqn:E; [|exact Hhd].
      apply (f_equal (@rev ascii)) in E. rewrite rev_involutive in E. now subst l. }
  rewrite skip_while_sep_free_app by now apply sep_free_rev. simpl.
  rewrite length_rev, rev_involutive.
  destruct x' as [|c1 x'']; simpl.
  - destruct (is_sep c0) eqn:Hc; [|reflexivity].
    apply Ascii.eqb_eq in Hc. now subst c0.
  - now rewrite andb_false_r.
Qed.

Lemma regular_name_like (s : chars) : regular s -> name_like s.
Proof. intros H. split; [now apply regular_nonempty|apply H]. Qed.

Lemma dotdot_name_like : name_like dotdot.
Proof. split; [discriminate|repeat constructor]. Qed.

Lemma is_dotdot_spec (s : chars) : is_dotdot s = true <-> s = dotdot.
Proof.
  unfold dotdot. split.
  - destruct s as [|c1 [|c2 [|c3 s]]]; simpl; try discriminate.
    rewrite andb_true_iff, !Ascii.eqb_eq. now intros [-> ->].
  - now intros ->.
Qed.

Lemma normal_name_like (above : bool) (segs : list chars) :
  normal_segs above segs -> Forall name_like segs.
Proof.
  intros (ups & regs & -> & Hups & Hregs & _). apply Forall_app_2.
  - eapply Forall_impl; [exact Hups|]. intros s ->. apply dotdot_name_like.
  - eapply Forall_impl; [exact Hregs|]. apply regular_name_like.
Qed.

Lemma normal_init (above : bool) (init : list chars) (l : chars) :
  normal_segs above (init ++ [l]) -> normal_segs above init.
Proof.
  intros (ups & regs & E & Hups & Hregs & Hab).
  destruct regs as [|r regs0] using rev_ind.
  - rewrite app_nil_r in E. subst ups.
    apply Forall_app in Hups as [Hups _].
    exists init, []. rewrite app_nil_r. repeat split; auto.
    intros Ha. specialize (Hab Ha). now destruct init.
  - rewrite app_assoc in E. apply app_inj_tail in E as [-> _].
    apply Forall_app in Hregs as [Hregs _].
    exists ups, regs0. auto.
Qed.

Lemma fold_norm_ups (ups stack : list chars) :
  Forall (fun s => s = dotdot) ups -> Forall (fun s => s = dotdot) stack ->
  fold_left (norm_step true) ups stack = rev ups ++ stack.
Proof.
  intros Hups. revert stack.
  induction Hups as [|s ups -> _ IH]; intros stack Hst; [reflexivity|].
  cbn [fold_left rev]. rewrite <- app_assoc. cbn [app].
  assert (E : norm_step true stack dotdot = dotdot :: stack).
  { destruct stack as [|t stack']; [reflexivity|].
    inversion Hst; subst. reflexivity. }
  rewrite E. apply IH. now constructor.
Qed.

(** Normalizing segments that are in normal form keeps them all. *)
Lemma fold_norm_normal (above : bool) (segs : list chars) :
  normal_segs above segs ->
  fold_left (norm_step above) segs [] = rev segs.
Proof.
  intros (ups & regs & -> & Hups & Hregs & Hab).
  rewrite fold_left_app, rev_app_distr.
  destruct above.
  - rewrite (fold_norm_ups ups []), app_nil_r by (assumption || constructor).
    now apply fold_norm_regular.
  - rewrite (Hab eq_refl). cbn [fold_left rev]. now apply fold_norm_regular.
Qed.

Lemma norm_step_normal (above : bool) (stack : list chars) (s : chars) :
  sep_free s -> normal_stack above stack ->
  normal_stack above (norm_step above stack s).
Proof.
  intros Hs (regs & ups & -> & Hregs & Hups & Hab). unfold norm_step.
  destruct (is_empty s || is_dot s) eqn:Hskip; [exists regs, ups; auto|].
  apply orb_false_iff in Hskip as [He Hd].
  destruct (is_dotdot s) eqn:Hdd.
  - apply is_dotdot_spec in Hdd. subst s.
    destruct regs as [|t regs'].
    + cbn [app]. destruct ups as [|u ups'].
      * destruct above; [|exists [], []; auto].
        exists [], [dotdot]. repeat split; auto. discriminate.
      * inversion Hups; subst. cbn [is_dotdot Ascii.eqb andb dotdot].
        change (is_dotdot dotdot) with true. cbv iota.
        destruct above; [|exists [], (dotdot :: ups'); auto].
        exists [], (dotdot :: dotdot :: ups'). repeat split; auto. discriminate.
    + inversion Hregs as [|? ? Ht Hregs']; subst. cbn [app].
      destruct Ht as (Ht1 & Ht2 & Ht3 & Ht4). rewrite Ht3.
      exists regs', ups. auto.
  - exists (s :: regs), ups. repeat split; auto.
    constructor; [|assumption]. repeat split; assumption.
Qed.

Lemma fold_norm_stack (above : bool) (segs stack : list chars) :
  Forall sep_free segs -> normal_stack above stack ->
  normal_stack above (fold_left (norm_step above) segs stack).
Proof.
  intros Hsegs. revert stack.
  induction Hsegs as [|s segs Hs _ IH]; intros stack Hst; [exact Hst|].
  cbn [fold_left]. apply IH. now apply norm_step_normal.
Qed.

Lemma split_sep_free_all (p : chars) : Forall sep_free (split p).
Proof.
  induction p as [|c p IH]; simpl; [repeat constructor|].
  destruct (is_sep c) eqn:Hc; [constructor; [constructor|assumption]|].
  destruct (split p) as [|s ss]; [repeat constructor; unfold not_sep; now rewrite Hc|].
  inversion IH; subst. constructor; [|assumption].
  constructor; [unfold not_sep; now rewrite Hc|assumption].
Qed.

Lemma normal_stack_rev (above : bool) (stack : list chars) :
  normal_stack above stack -> normal_segs above (rev stack).
Proof.
  intros (regs & ups & -> & Hregs & Hups & Hab).
  exists (rev ups), (rev regs). rewrite rev_app_distr. repeat split.
  - now apply Forall_rev.
  - now apply Forall_rev.
  - intros Ha. now rewrite (Hab Ha).
Qed.

Lemma normalizeString_normal (above : bool) (p : chars) :
  normal_segs above (rev (fold_left (norm_step above) (split p) [])).
Proof.
  apply normal_stack_rev, fold_norm_stack; [apply split_sep_free_all|].
  exists [], []. auto.
Qed.

Lemma unsplit_names_head (segs : list chars) :
  segs <> [] -> Forall name_like segs ->
  unsplit segs <> [] /\ starts_with_sep (unsplit segs) = false.
Proof.
  intros Hne Hall. destruct segs as [|s segs]; [congruence|].
  inversion Hall as [|? ? [Hs' Hsf] _]; subst.
  destruct s as [|c s]; [congruence|]. inversion Hsf as [|? ? Hc _]; subst.
  unfold not_sep in Hc.
  destruct segs; simpl; split; try discriminate; now destruct (is_sep c).
Qed.

(** The signature path of a path in normal form, without trailing
    separator: the suffix is appended. *)
Lemma sigOutPath_chars_normal_form (absolute : bool) (segs : list chars) :
  segs <> [] -> normal_segs (negb absolute) segs ->
  sigOutPath_chars (root absolute ++ unsplit segs)
  = (root absolute ++ unsplit segs) ++ suffix_chars.
Proof.
  intros Hne Hnormal.
  destruct (exists_last Hne) as (init & l & ->).
  pose proof (normal_init _ _ _ Hnormal) as Hinit.
  pose proof (normal_name_like _ _ Hnormal) as Hnames.
  apply Forall_app in Hnames as [Hnames Hl].
  inversion Hl as [|? ? [Hlne Hlsf] _]; subst.
  pose proof (suffixed_regular l Hlsf) as Hf.
  rewrite unsplit_snoc.
  destruct init as [|s init'].
  - (* a single segment *)
    destruct (basename_last_segment [] l Hlne Hlsf) as [Hb1 Hb2].
    rewrite sigOutPath_chars_normal. cbv zeta.
    destruct absolute; cbn [root app].
    + rewrite dirname_root_single by assumption.
      change ("/"%char :: l) with ([] ++ "/"%char :: l). now rewrite Hb2.
    + rewrite dirname_single by assumption. now rewrite Hb1.
  - (* a directory part and a last segment *)
    set (ini := s :: init') in *.
    assert (Hini : ini <> []) by discriminate.
    destruct (unsplit_names_head ini Hini Hnames) as [Hu Hus].
    assert (Hx : root absolute ++ unsplit ini <> []).
    { intros E. now apply app_eq_nil in E as [_ E]. }
    assert (Hxr : root absolute ++ unsplit ini <> ["/"%char]).
    { destruct absolute; cbn [root app].
      - intros E. injection E as E. contradiction.
      - intros E. rewrite E in Hus. discriminate. }
    assert (Hxs : starts_with_sep (root absolute ++ unsplit ini) = absolute).
    { destruct absolute; [reflexivity|exact Hus]. }
    assert (Hsplit : fold_left (norm_step (negb absolute))
                       (split (root absolute ++ unsplit ini)) [] = rev ini).
    { assert (Hsf : Forall sep_free ini)
        by (eapply Forall_impl; [exact Hnames|]; intros ? H; apply H).
      destruct absolute; cbn [root app].
      - change ("/"%char :: unsplit ini) with ([] ++ "/"%char :: unsplit ini).
        rewrite split_app_sep, split_unsplit, fold_left_app by assumption.
        change (fold_left (norm_step (negb true)) (split []) []) with (@nil chars).
        now apply fold_norm_normal.
      - rewrite split_unsplit by assumption. now apply fold_norm_normal. }
    subst ini. cbv iota. set (ini := s :: init') in *.
    rewrite app_assoc.
    rewrite sigOutPath_chars_normal. cbv zeta.
    rewrite (proj2 (basename_last_segment (root absolute ++ unsplit ini) l Hlne Hlsf)).
    rewrite dirname_dir_file by assumption.
    rewrite Hxs, Hsplit, rev_involutive, unsplit_snoc.
    subst ini. cbv iota.
    now rewrite <- !app_assoc.
Qed.

Lemma sigOutPath_chars_normalized (p : chars) :
  normalize_chars p = p -> ends_with_sep p = false ->
  sigOutPath_chars p = p ++ suffix_chars.
Proof.
  intros Hnorm Hends.
  assert (Hn : (match normalizeString (negb (starts_with_sep p)) p with
                | [] => if starts_with_sep p then ["/"%char] else ["."%char]
                | r => root (starts_with_sep p) ++ r
                end) = p).
  { destruct p as [|c p']; [discriminate|].
    unfold normalize_chars in Hnorm. cbv zeta in Hnorm. rewrite Hends in Hnorm.
    rewrite <- Hnorm at 3. unfold root.
    destruct (normalizeString _ _); [reflexivity|]. now rewrite app_nil_r. }
  unfold normalizeString in Hn.
  pose proof (normalizeString_normal (negb (starts_with_sep p)) p) as Hsegs.
  set (segs := rev _) in *.
  destruct (unsplit segs) as [|x r] eqn:Er.
  - destruct (starts_with_sep p); rewrite <- Hn in *; [discriminate|reflexivity].
  - rewrite <- Er in Hn.
    assert (Hne : segs <> []) by (intros E; rewrite E in Er; discriminate).
    pose proof (sigOutPath_chars_normal_form (starts_with_sep p) segs Hne Hsegs) as H.
    now rewrite Hn in H.
Qed.

Lemma sigOutPath_normalized (p : string) :
  Path.normalize p = p -> Path.ends_with_slash p = false ->
  sigOutPath p = p +:+ "-sig.bin".
Proof.
  intros Hnorm Hends. rewrite sigOutPath_chars_eq.
  unfold Path.normalize, lift1 in Hnorm.
  apply (f_equal list_ascii_of_string) in Hnorm.
  rewrite list_ascii_of_string_of_list_ascii in Hnorm.
  rewrite sigOutPath_chars_normalized by assumption.
  now rewrite string_of_list_ascii_app, string_of_list_ascii_of_string.
Qed.

End SigPathFacts.

(** ** Base64: [forge.util.decode64] undoes [toString('base64')] *)

Module Base64Facts.
Import forge_util Base64.

(** Facts about bytes and base64 digits are checked on every value. *)
Lemma in_upto (n : nat) (z : Z) : 0 <= z < Z.of_nat n -> In z (upto n).
Proof.
  intros Hz. unfold upto. apply in_map_iff. exists (Z.to_nat z).
  split; [lia|]. apply in_seq. lia.
Qed.

Lemma forall_upto (n : nat) (P : Z -> bool) :
  forallb P (upto n) = true -> forall z, 0 <= z < Z.of_nat n -> P z = true.
Proof.
  intros H z Hz. rewrite forallb_forall in H. apply H. now apply in_upto.
Qed.

Lemma forall2_upto (n m : nat) (P : Z -> Z -> bool) :
  forallb (fun a => forallb (P a) (upto m)) (upto n) = true ->
  forall a b, 0 <= a < Z.of_nat n -> 0 <= b < Z.of_nat m -> P a b = true.
Proof.
  intros H a b Ha Hb.
  pose proof (forall_upto n _ H a Ha) as H'. cbv beta in H'.
  exact (forall_upto m _ H' b Hb).
Qed.

Lemma byte_to_Z_range (b : byte) : 0 <= byte_to_Z b < 256.
Proof. unfold byte_to_Z. pose proof (Byte.to_N_bounded b). lia. Qed.

Lemma byte_of_to_Z (b : byte) : byte_of_Z (byte_to_Z b) = b.
Proof.
  unfold byte_of_Z. pose proof (byte_to_Z_range b) as Hb.
  rewrite Z.mod_small by lia. unfold byte_to_Z.
  now rewrite N2Z.id, Byte.of_to_N.
Qed.

Lemma digit_char (v : Z) :
  is_digit v = true ->
  idx (Some (base64_char v)) = Some v
  /\ is_base64_char (base64_char v) = true
  /\ is64 (Some v) = false.
Proof.
  intros Hv. unfold is_digit in Hv. apply andb_true_iff in Hv as [H0 H1].
  apply Z.leb_le in H0. apply Z.ltb_lt in H1.
  set (P := fun v => match idx (Some (base64_char v)) with
                      | Some v' => v' =? v
                      | None => false
                      end
                      && is_base64_char (base64_char v)
                      && negb (is64 (Some v))).
  assert (H : P v = true)
    by (apply (forall_upto 64 P); [vm_compute; reflexivity|lia]).
  subst P. cbv beta in H. apply andb_true_iff in H as [H Hc].
  apply andb_true_iff in H as [Ha Hb].
  destruct (idx (Some (base64_char v))) as [v'|]; [|discriminate].
  apply Z.eqb_eq in Ha. subst v'. apply negb_true_iff in Hc. auto.
Qed.

Lemma byte_facts (n : Z) :
  0 <= n < 256 ->
  is_digit (digit1 n) = true /\ is_digit (digit4 n) = true
  /\ is_digit (digit2_last n) = true /\ is_digit (digit3_last n) = true
  /\ char1 (digit1 n) (digit2_last n) = n
  /\ fromCharCode (Z.lor (shl (Z.shiftr n 4) 4) (Z.shiftr (digit3_last n) 2)) = n.
Proof.
  intros Hn.
  set (P := fun n => is_digit (digit1 n) && is_digit (digit4 n)
                 && is_digit (digit2_last n) && is_digit (digit3_last n)
                 && (char1 (digit1 n) (digit2_last n) =? n)
                 && (fromCharCode (Z.lor (shl (Z.shiftr n 4) 4)
                                         (Z.shiftr (digit3_last n) 2)) =? n)).
  assert (H : P n = true)
    by (apply (forall_upto 256 P); [vm_compute; reflexivity|lia]).
  subst P. cbv beta in H. rewrite !andb_true_iff, !Z.eqb_eq in H. tauto.
Qed.

(** The parts of a byte that go into different digits, and the byte put
    together again from its parts. *)
Lemma byte_parts (n : Z) :
  0 <= n < 256 ->
  (0 <= Z.land n 3 < 4 /\ 0 <= Z.shiftr n 4 < 16
   /\ 0 <= Z.land n 15 < 16 /\ 0 <= Z.shiftr n 6 < 4)
  /\ fromCharCode (Z.lor (shl (Z.shiftr n 2) 2) (Z.land n 3)) = n
  /\ fromCharCode (Z.lor (shl (Z.shiftr n 4) 4) (Z.land n 15)) = n
  /\ fromCharCode (Z.lor (shl (Z.shiftr n 6) 6) (Z.land n 63)) = n
  /\ Z.shiftr (digit3_last n) 2 = Z.land n 15.
Proof.
  intros Hn.
  set (P := fun n => (Z.land n 3 <? 4) && (0 <=? Z.land n 3)
                 && (Z.shiftr n 4 <? 16) && (0 <=? Z.shiftr n 4)
                 && (Z.land n 15 <? 16) && (0 <=? Z.land n 15)
                 && (Z.shiftr n 6 <? 4) && (0 <=? Z.shiftr n 6)
                 && (fromCharCode (Z.lor (shl (Z.shiftr n 2) 2) (Z.land n 3)) =? n)
                 && (fromCharCode (Z.lor (shl (Z.shiftr n 4) 4) (Z.land n 15)) =? n)
                 && (fromCharCode (Z.lor (shl (Z.shiftr n 6) 6) (Z.land n 63)) =? n)
                 && (Z.shiftr (digit3_last n) 2 =? Z.land n 15)).
  assert (H : P n = true)
    by (apply (forall_upto 256 P); [vm_compute; reflexivity|lia]).
  subst P. cbv beta in H.
  rewrite !andb_true_iff, !Z.eqb_eq, !Z.ltb_lt, !Z.leb_le in H. intuition lia.
Qed.

(** Two parts side by side in a digit: each can be read back. *)
Lemma digit_parts (hi lo width : Z) :
  width = 4 /\ 0 <= hi < 4 /\ 0 <= lo < 16
  \/ width = 2 /\ 0 <= hi < 16 /\ 0 <= lo < 4 ->
  is_digit (Z.lor (Z.shiftl hi width) lo) = true
  /\ Z.shiftr (Z.lor (Z.shiftl hi width) lo) width = hi
  /\ Z.land (Z.lor (Z.shiftl hi width) lo) (2 ^ width - 1) = lo.
Proof.
  set (P := fun width hi lo =>
              is_digit (Z.lor (Z.shiftl hi width) lo)
              && (Z.shiftr (Z.lor (Z.shiftl hi width) lo) width =? hi)
              && (Z.land (Z.lor (Z.shiftl hi width) lo) (2 ^ width - 1) =? lo)).
  assert (H4 : forall hi lo, 0 <= hi < 4 -> 0 <= lo < 16 -> P 4 hi lo = true)
    by (apply (forall2_upto 4 16 (P 4)); vm_compute; reflexivity).
  assert (H2 : forall hi lo, 0 <= hi < 16 -> 0 <= lo < 4 -> P 2 hi lo = true)
    by (apply (forall2_upto 16 4 (P 2)); vm_compute; reflexivity).
  intros [(-> & Hhi & Hlo)|(-> & Hhi & Hlo)].
  - specialize (H4 hi lo Hhi Hlo). subst P. cbv beta in H4.
    rewrite !andb_true_iff, !Z.eqb_eq in H4. tauto.
  - specialize (H2 hi lo Hhi Hlo). subst P. cbv beta in H2.
    rewrite !andb_true_iff, !Z.eqb_eq in H2. tauto.
Qed.

Lemma byte_pair_facts (a b : Z) :
  0 <= a < 256 -> 0 <= b < 256 ->
  is_digit (digit2 a b) = true /\ is_digit (digit3 a b) = true
  /\ char1 (digit1 a) (digit2 a b) = a
  /\ Z.land (digit2 a b) 15 = Z.shiftr b 4
  /\ char2 (digit2 a b) (digit3_last b) = b
  /\ (forall c, char2 (digit2 a b) (digit3 b c)
                = fromCharCode (Z.lor (shl (Z.shiftr b 4) 4) (Z.shiftr (digit3 b c) 2)))
  /\ fromCharCode (Z.lor (shl (Z.shiftr a 4) 4) (Z.shiftr (digit3 a b) 2)) = a
  /\ char3 (digit3 a b) (digit4 b) = b.
Proof.
  intros Ha Hb.
  destruct (byte_parts a Ha) as ((Ha3 & _ & Ha15 & _) & A1 & A2 & _ & _).
  destruct (byte_parts b Hb) as ((_ & Hb4 & _ & Hb6) & _ & B2 & B3 & Bl).
  destruct (digit_parts (Z.land a 3) (Z.shiftr b 4) 4) as (D2 & S2 & L2); [auto|].
  destruct (digit_parts (Z.land a 15) (Z.shiftr b 6) 2) as (D3 & S3 & L3); [auto|].
  change (2 ^ 4 - 1) with 15 in L2. change (2 ^ 2 - 1) with 3 in L3.
  fold (digit2 a b) in D2, S2, L2. fold (digit3 a b) in D3, S3, L3.
  unfold char1, char2, char3, digit1, digit4.
  rewrite S2, L2, S3, L3, Bl. auto 10.
Qed.

Lemma list_ind3 {A} (P : list A -> Prop) :
  P [] -> (forall a, P [a]) -> (forall a b, P [a; b]) ->
  (forall a b c l, P l -> P (a :: b :: c :: l)) ->
  forall l, P l.
Proof.
  intros H0 H1 H2 H3.
  fix IH 1. intros [|a [|b [|c l]]]; [exact H0|apply H1|apply H2|apply H3, IH].
Qed.

Lemma decode_group_digits (e1 e2 e3 e4 : Z) :
  is_digit e1 = true -> is_digit e2 = true ->
  is_digit e3 = true -> is_digit e4 = true ->
  decode_group (Some (base64_char e1)) (Some (base64_char e2))
               (Some (base64_char e3)) (Some (base64_char e4))
  = [char1 e1 e2; char2 e2 e3; char3 e3 e4].
Proof.
  intros H1 H2 H3 H4. unfold decode_group. cbv zeta.
  destruct (digit_char e1 H1) as (-> & _ & _).
  destruct (digit_char e2 H2) as (-> & _ & _).
  destruct (digit_char e3 H3) as (-> & _ & ->).
  destruct (digit_char e4 H4) as (-> & _ & ->).
  reflexivity.
Qed.

Lemma decode_group_pad1 (e1 e2 e3 : Z) :
  is_digit e1 = true -> is_digit e2 = true -> is_digit e3 = true ->
  decode_group (Some (base64_char e1)) (Some (base64_char e2))
               (Some (base64_char e3)) (Some pad_char)
  = [char1 e1 e2; char2 e2 e3].
Proof.
  intros H1 H2 H3. unfold decode_group. cbv zeta.
  destruct (digit_char e1 H1) as (-> & _ & _).
  destruct (digit_char e2 H2) as (-> & _ & _).
  destruct (digit_char e3 H3) as (-> & _ & ->).
  reflexivity.
Qed.

Lemma decode_group_pad2 (e1 e2 : Z) :
  is_digit e1 = true -> is_digit e2 = true ->
  decode_group (Some (base64_char e1)) (Some (base64_char e2))
               (Some pad_char) (Some pad_char)
  = [char1 e1 e2].
Proof.
  intros H1 H2. unfold decode_group. cbv zeta.
  destruct (digit_char e1 H1) as (-> & _ & _).
  destruct (digit_char e2 H2) as (-> & _ & _).
  reflexivity.
Qed.

(** Every character of the encoding passes the filter of [decode64]. *)
Lemma base64_chars_kept (b : Buffer) :
  List.filter is_base64_char (Buffer_toString_base64 b) = Buffer_toString_base64 b.
Proof.
  induction b as [|b1|b1 b2|b1 b2 b3 rest IH] using list_ind3; [reflexivity| | |].
  - pose proof (byte_facts _ (byte_to_Z_range b1)) as (D1 & _ & D2 & _).
    cbn [Buffer_toString_base64 List.filter]. fold (digit1 (byte_to_Z b1)).
    fold (digit2_last (byte_to_Z b1)).
    destruct (digit_char _ D1) as (_ & -> & _).
    destruct (digit_char _ D2) as (_ & -> & _). reflexivity.
  - pose proof (byte_facts _ (byte_to_Z_range b1)) as (D1 & _).
    pose proof (byte_facts _ (byte_to_Z_range b2)) as (_ & _ & _ & D3 & _).
    pose proof (byte_pair_facts _ _ (byte_to_Z_range b1) (byte_to_Z_range b2))
      as (D2 & _).
    cbn [Buffer_toString_base64 List.filter].
    fold (digit1 (byte_to_Z b1)). fold (digit2 (byte_to_Z b1) (byte_to_Z b2)).
    fold (digit3_last (byte_to_Z b2)).
    destruct (digit_char _ D1) as (_ & -> & _).
    destruct (digit_char _ D2) as (_ & -> & _).
    destruct (digit_char _ D3) as (_ & -> & _). reflexivity.
  - pose proof (byte_facts _ (byte_to_Z_range b1)) as (D1 & _).
    pose proof (byte_facts _ (byte_to_Z_range b3)) as (_ & D4 & _).
    pose proof (byte_pair_facts _ _ (byte_to_Z_range b1) (byte_to_Z_range b2))
      as (D2 & _).
    pose proof (byte_pair_facts _ _ (byte_to_Z_range b2) (byte_to_Z_range b3))
      as (_ & D3 & _).
    cbn [Buffer_toString_base64 List.filter].
    fold (digit1 (byte_to_Z b1)). fold (digit2 (byte_to_Z b1) (byte_to_Z b2)).
    fold (digit3 (byte_to_Z b2) (byte_to_Z b3)). fold (digit4 (byte_to_Z b3)).
    destruct (digit_char _ D1) as (_ & -> & _).
    destruct (digit_char _ D2) as (_ & -> & _).
    destruct (digit_char _ D3) as (_ & -> & _).
    destruct (digit_char _ D4) as (_ & -> & _).
    now rewrite IH.
Qed.

Lemma decode_loop_base64 (b : Buffer) :
  decode_loop (Buffer_toString_base64 b) = Buffer_toString_binary b.
Proof.
  induction b as [|b1|b1 b2|b1 b2 b3 rest IH] using list_ind3; [reflexivity| | |].
  - pose proof (byte_facts _ (byte_to_Z_range b1)) as (D1 & _ & D2 & _ & C1 & _).
    cbn [Buffer_toString_base64 decode_loop].
    fold (digit1 (byte_to_Z b1)). fold (digit2_last (byte_to_Z b1)).
    rewrite decode_group_pad2 by assumption. now rewrite C1.
  - pose proof (byte_facts _ (byte_to_Z_range b1)) as (D1 & _).
    pose proof (byte_facts _ (byte_to_Z_range b2)) as (_ & _ & _ & D3 & _).
    pose proof (byte_pair_facts _ _ (byte_to_Z_range b1) (byte_to_Z_range b2))
      as (D2 & _ & C1 & _ & C2 & _).
    cbn [Buffer_toString_base64 decode_loop].
    fold (digit1 (byte_to_Z b1)). fold (digit2 (byte_to_Z b1) (byte_to_Z b2)).
    fold (digit3_last (byte_to_Z b2)).
    rewrite decode_group_pad1 by assumption. now rewrite C1, C2.
  - pose proof (byte_facts _ (byte_to_Z_range b1)) as (D1 & _).
    pose proof (byte_facts _ (byte_to_Z_range b3)) as (_ & D4 & _).
    pose proof (byte_pair_facts _ _ (byte_to_Z_range b1) (byte_to_Z_range b2))
      as (D2 & _ & C1 & _ & _ & C2 & _).
    pose proof (byte_pair_facts _ _ (byte_to_Z_range b2) (byte_to_Z_range b3))
      as (_ & D3 & _ & _ & _ & _ & C2' & C3).
    cbn [Buffer_toString_base64 decode_loop].
    fold (digit1 (byte_to_Z b1)). fold (digit2 (byte_to_Z b1) (byte_to_Z b2)).
    fold (digit3 (byte_to_Z b2) (byte_to_Z b3)). fold (digit4 (byte_to_Z b3)).
    rewrite decode_group_digits by assumption.
    rewrite C1, C2, C2', C3, IH. reflexivity.
Qed.

Lemma decode64_toString_base64 (b : Buffer) :
  decode64 (Buffer_toString_base64 b) = Buffer_toString_binary b.
Proof. unfold decode64. now rewrite base64_chars_kept, decode_loop_base64. Qed.

Lemma Buffer_from_toString_binary (b : Buffer) :
  Buffer_from_binary (Buffer_toString_binary b) = b.
Proof.
  unfold Buffer_from_binary, Buffer_toString_binary.
  induction b as [|x b IH]; simpl; [reflexivity|].
  now rewrite byte_of_to_Z, IH.
Qed.

End Base64Facts.


(** ** The signature path as a normal form *)

Module SigPathMore.
Import Path PathFacts SigPathFacts.

Lemma basename_trailing_sep (p : chars) :
  basename_chars (p ++ ["/"%char]) = basename_chars p.
Proof. unfold basename_chars. now rewrite rev_app_distr. Qed.

Lemma dirname_trailing_sep (p : chars) :
  p <> [] -> dirname_chars (p ++ ["/"%char]) = dirname_chars p.
Proof.
  destruct p as [|c0 body]; [congruence|]. intros _.
  cbn [app dirname_chars]. now rewrite rev_app_distr.
Qed.

Lemma starts_with_sep_dirname (p : chars) :
  starts_with_sep (dirname_chars p) = starts_with_sep p.
Proof.
  destruct p as [|c0 body]; [reflexivity|]. cbn [dirname_chars starts_with_sep].
  destruct (skip_while not_sep (skip_while is_sep (rev body))) as [|x pre].
  - now destruct (is_sep c0).
  - destruct (is_sep c0) eqn:Hc; cbn [andb]; [|exact Hc].
    destruct (Nat.eqb (length pre) 0); [reflexivity|exact Hc].
Qed.

Lemma normal_snoc_regular (above : bool) (segs : list chars) (f : chars) :
  normal_segs above segs -> regular f -> normal_segs above (segs ++ [f]).
Proof.
  intros (ups & regs & -> & Hups & Hregs & Hab) Hf.
  exists ups, (regs ++ [f]). rewrite app_assoc. repeat split; auto.
  apply Forall_app_2; [assumption|now constructor].
Qed.

(** A path written from segments in normal form is a fixed point of
    [path.normalize]; it does not end with a separator, and it is absolute
    when it has the root. *)
Lemma normalize_normal_form (absolute : bool) (segs : list chars) :
  segs <> [] -> normal_segs (negb absolute) segs ->
  normalize_chars (root absolute ++ unsplit segs) = root absolute ++ unsplit segs
  /\ ends_with_sep (root absolute ++ unsplit segs) = false
  /\ starts_with_sep (root absolute ++ unsplit segs) = absolute.
Proof.
  intros Hne Hnormal.
  pose proof (normal_name_like _ _ Hnormal) as Hnames.
  destruct (unsplit_names_head segs Hne Hnames) as [Hu Hus].
  assert (Hstart : starts_with_sep (root absolute ++ unsplit segs) = absolute)
    by (destruct absolute; [reflexivity|exact Hus]).
  assert (Hends : ends_with_sep (root absolute ++ unsplit segs) = false).
  { destruct (exists_last Hne) as (init & l & ->).
    apply Forall_app in Hnames as [_ Hl]. inversion Hl as [|? ? [Hlne Hlsf] _]; subst.
    rewrite unsplit_snoc. destruct init as [|s init'].
    - now apply ends_with_sep_segment.
    - change (unsplit (s :: init') ++ "/"%char :: l)
        with (unsplit (s :: init') ++ ["/"%char] ++ l).
      rewrite !app_assoc. now apply ends_with_sep_segment. }
  assert (Hstr : normalizeString (negb absolute) (root absolute ++ unsplit segs)
                 = unsplit segs).
  { unfold normalizeString.
    assert (Hsf : Forall sep_free segs)
      by (eapply Forall_impl; [exact Hnames|]; intros ? H; apply H).
    destruct absolute; cbn [root app].
    - change ("/"%char :: unsplit segs) with ([] ++ "/"%char :: unsplit segs).
      rewrite split_app_sep, split_unsplit, fold_left_app by assumption.
      change (fold_left (norm_step (negb true)) (split []) []) with (@nil chars).
      now rewrite fold_norm_normal, rev_involutive.
    - rewrite split_unsplit by assumption.
      now rewrite fold_norm_normal, rev_involutive. }
  repeat split; try assumption.
  rewrite normalize_chars_kept; rewrite ?Hstart, ?Hstr; try assumption.
  - reflexivity.
  - intros E. now apply app_eq_nil in E as [_ E].
Qed.

Lemma sigOutPath_chars_normal_form_of (p : chars) :
  normalize_chars (sigOutPath_chars p) = sigOutPath_chars p
  /\ ends_with_sep (sigOutPath_chars p) = false
  /\ starts_with_sep (sigOutPath_chars p) = starts_with_sep p.
Proof.
  rewrite sigOutPath_chars_normal. cbv zeta.
  pose proof (suffixed_regular _ (basename_sep_free p)) as Hf.
  pose proof (normalizeString_normal
                (negb (starts_with_sep (dirname_chars p))) (dirname_chars p)) as Hsegs.
  set (segs := rev _) in *.
  pose proof (normal_snoc_regular _ _ _ Hsegs Hf) as Hall.
  assert (Hne : segs ++ [basename_chars p ++ suffix_chars] <> [])
    by (intros E; now apply app_eq_nil in E as [_ E]).
  destruct (normalize_normal_form _ _ Hne Hall) as (H1 & H2 & H3).
  unfold root in *.
  split; [exact H1|]. split; [exact H2|].
  etransitivity; [exact H3|apply starts_with_sep_dirname].
Qed.


Lemma keep_skip_while (f : ascii -> bool) (l : chars) :
  keep_while f l ++ skip_while f l = l.
Proof.
  induction l as [|c l IH]; [reflexivity|]. simpl.
  destruct (f c); [simpl; now rewrite IH|reflexivity].
Qed.

Lemma skip_not_sep_head (l : chars) :
  skip_while not_sep l = [] \/ exists t, skip_while not_sep l = "/"%char :: t.
Proof.
  induction l as [|c l IH]; [now left|]. simpl.
  destruct (not_sep c) eqn:Hn; [exact IH|].
  right. unfold not_sep in Hn. apply negb_false_iff in Hn.
  apply Ascii.eqb_eq in Hn. subst c. eauto.
Qed.

(** A path that does not end with a separator is its last segment, alone
    or after a separator. *)
Lemma last_segment (p : chars) :
  p <> [] -> ends_with_sep p = false ->
  exists l, l <> [] /\ sep_free l /\ (p = l \/ exists x, p = x ++ "/"%char :: l).
Proof.
  intros Hne Hends.
  exists (rev (keep_while not_sep (rev p))).
  pose proof (keep_skip_while not_sep (rev p)) as E.
  assert (Hk : keep_while not_sep (rev p) <> []).
  { unfold ends_with_sep in Hends. destruct (rev p) as [|c r] eqn:Er.
    - apply (f_equal (@rev ascii)) in Er. rewrite rev_involutive in Er. now subst p.
    - simpl in Hends. simpl. unfold not_sep. now rewrite Hends. }
  repeat split.
  - intros H. apply Hk. apply (f_equal (@rev ascii)) in H.
    now rewrite rev_involutive in H.
  - apply sep_free_rev, keep_while_sep_free.
  - apply (f_equal (@rev ascii)) in E. rewrite rev_involutive, rev_app_distr in E.
    destruct (skip_not_sep_head (rev p)) as [Hs|(t & Hs)]; rewrite Hs in E.
    + left. simpl in E. now symmetry.
    + right. exists (rev t). simpl in E. rewrite <- app_assoc in E. now symmetry.
Qed.

Lemma join_chars_nonempty (d f : chars) :
  d <> [] -> f <> [] -> join_chars d f = normalize_chars (d ++ "/"%char :: f).
Proof. destruct d, f; congruence || reflexivity. Qed.

(** Without a separator at the end of the input, the signature path is
    the normal form of the input with the suffix appended. *)
Lemma sigOutPath_chars_normalize (p : chars) :
  ends_with_sep p = false ->
  sigOutPath_chars p = normalize_chars (p ++ suffix_chars).
Proof.
  intros Hends. destruct p as [|c0 p0] eqn:Ep; [reflexivity|]. rewrite <- Ep in *.
  assert (Hne : p <> []) by (rewrite Ep; discriminate).
  destruct (last_segment p Hne Hends) as (l & Hlne & Hlsf & Hp).
  pose proof (suffixed_regular l Hlsf) as Hf.
  pose proof (regular_nonempty _ Hf) as Hfne.
  assert (Hfn : normal_segs true [l ++ suffix_chars] /\
                normal_segs false [l ++ suffix_chars]).
  { split; exists [], [l ++ suffix_chars]; repeat split; auto. }
  destruct Hfn as [Hfr Hfa].
  destruct (basename_last_segment [] l Hlne Hlsf) as [Hb1 _].
  unfold sigOutPath_chars.
  destruct Hp as [->|(x & ->)].
  - rewrite Hb1, dirname_single, join_chars_nonempty by (assumption || discriminate).
    rewrite normalize_dir_file by (assumption || discriminate).
    symmetry.
    apply (normalize_normal_form false [l ++ suffix_chars]); [discriminate|exact Hfr].
  - rewrite (proj2 (basename_last_segment x l Hlne Hlsf)).
    destruct x as [|c x'].
    + cbn [app]. rewrite dirname_root_single by assumption.
      rewrite join_chars_nonempty by (assumption || discriminate).
      rewrite normalize_dir_file by (assumption || discriminate).
      symmetry.
      apply (normalize_normal_form true [l ++ suffix_chars]); [discriminate|exact Hfa].
    + destruct (decide (c :: x' = ["/"%char])) as [E|E].
      * injection E as -> ->. cbn [app].
        change (dirname_chars ("/"%char :: "/"%char :: l))
          with (dirname_chars (["/"%char] ++ "/"%char :: l)).
        assert (Hd : dirname_chars (["/"%char] ++ "/"%char :: l)
                     = ["/"%char; "/"%char]).
        { cbn [app dirname_chars rev].
          rewrite skip_sep_not_sep.
          2:{ pose proof (rev_head_not_sep l Hlne Hlsf) as Hhd.
              destruct (rev l) as [|c r] eqn:Er; [|exact Hhd].
              apply (f_equal (@rev ascii)) in Er.
              rewrite rev_involutive in Er. now subst l. }
          rewrite skip_while_sep_free_app by now apply sep_free_rev.
          reflexivity. }
        rewrite Hd, join_chars_nonempty by (assumption || discriminate).
        rewrite normalize_dir_file by (assumption || discriminate).
        change (normalize_chars ("/"%char :: "/"%char :: l ++ suffix_chars))
          with (normalize_chars (["/"%char] ++ "/"%char :: (l ++ suffix_chars))).
        rewrite normalize_dir_file by (assumption || discriminate). reflexivity.
      * rewrite dirname_dir_file by (assumption || discriminate).
        rewrite join_chars_nonempty by (assumption || discriminate).
        now rewrite <- app_assoc.
Qed.

Lemma normalize_chars_cases (p : chars) :
  p <> [] ->
  normalize_chars p =
  match normalizeString (negb (starts_with_sep p)) p with
  | [] => if starts_with_sep p then ["/"%char]
          else if ends_with_sep p then ["."%char; "/"%char] else ["."%char]
  | r => root (starts_with_sep p) ++ r
         ++ (if ends_with_sep p then ["/"%char] else [])
  end.
Proof.
  intros Hp. destruct p as [|c p]; [congruence|].
  unfold normalize_chars, root. cbv zeta.
  now destruct (normalizeString _ _).
Qed.

(** The directory of the signature path is the directory of the input in
    normal form, without the separator that [path.normalize] keeps at the
    end of a path that has one. *)
Lemma dirname_sigOutPath_chars (p : chars) :
  normalize_chars (dirname_chars p) = dirname_chars (sigOutPath_chars p)
  \/ normalize_chars (dirname_chars p)
     = dirname_chars (sigOutPath_chars p) ++ ["/"%char].
Proof.
  rewrite sigOutPath_chars_normal. cbv zeta.
  pose proof (suffixed_regular _ (basename_sep_free p)) as Hf.
  pose proof (regular_nonempty _ Hf) as Hfne.
  assert (Hfsf : sep_free (basename_chars p ++ suffix_chars)) by apply Hf.
  set (f := basename_chars p ++ suffix_chars) in *.
  set (d := dirname_chars p).
  pose proof (dirname_nonempty p) as Hd. fold d in Hd.
  pose proof (normalizeString_normal (negb (starts_with_sep d)) d) as Hsegs.
  rewrite (normalize_chars_cases d Hd). unfold normalizeString.
  set (segs := rev _) in *.
  rewrite unsplit_snoc.
  destruct segs as [|s segs'] eqn:Es.
  - cbn [unsplit]. destruct (starts_with_sep d); cbn [app].
    + left. now rewrite dirname_root_single.
    + rewrite dirname_single by assumption.
      destruct (ends_with_sep d); [now right|now left].
  - rewrite <- Es in *. assert (Hne : segs <> []) by (rewrite Es; discriminate).
    pose proof (normal_name_like _ _ Hsegs) as Hnames.
    destruct (unsplit_names_head segs Hne Hnames) as [Hu Hus].
    assert (Hx : (if starts_with_sep d then ["/"%char] else []) ++ unsplit segs <> [])
      by (intros E; now apply app_eq_nil in E as [_ E]).
    assert (Hxr : (if starts_with_sep d then ["/"%char] else []) ++ unsplit segs
                  <> ["/"%char]).
    { destruct (starts_with_sep d); cbn [app].
      - intros E. injection E as E. contradiction.
      - intros E. rewrite E in Hus. discriminate. }
    rewrite app_assoc, dirname_dir_file by assumption.
    unfold root. destruct (unsplit segs) as [|u us] eqn:Eu; [congruence|].
    destruct (ends_with_sep d); [right|left]; now rewrite ?app_nil_r, ?app_assoc.
Qed.

End SigPathMore.
(** ** The signer *)

Section SignerFacts.
Context `{Prim : Primitives}.

Ltac run :=
  unfold signer, getPrivateKey, privateKey_sign, first_bag_key, forge_call,
    bind, ret, throw, console_log, process_env, readFileSync, writeFileSync;
  cbn [env realpath files trace write_oracle log_event set_file fst snd].

Lemma falsy_spec (v : option string) : falsy v = true <-> absent_or_empty v.
Proof.
  unfold absent_or_empty. destruct v as [s|]; simpl.
  - rewrite bool_decide_eq_true. split; [intros ->; now right|].
    intros [H|H]; congruence.
  - split; [now left|reflexivity].
Qed.

Lemma config_missing_spec (w : World) :
  falsy (env w !! "LINUX_CSC_LINK") || falsy (env w !! "LINUX_CSC_KEY_PASSWORD") = true
  <-> config_missing w.
Proof. unfold config_missing. now rewrite orb_true_iff, !falsy_spec. Qed.

Lemma getPrivateKey_missing (w : World) :
  config_missing w ->
  getPrivateKey w = (Throw (JsError missing_env_message), w).
Proof.
  intros H. apply config_missing_spec in H. run. now rewrite H.
Qed.

Lemma getPrivateKey_configured (w : World) :
  ~ config_missing w ->
  exists lnk pass,
    env w !! "LINUX_CSC_LINK" = Some lnk
    /\ env w !! "LINUX_CSC_KEY_PASSWORD" = Some pass
    /\ getPrivateKey w =
       (match files w !! realpath w lnk with
        | None => Throw (FsError OpRead lnk)
        | Some data => key_of_bundle data pass
        end, log_event (EvRead lnk) w).
Proof.
  intros H. rewrite <- config_missing_spec in H.
  apply not_true_is_false in H. apply orb_false_iff in H as [Hl Hp].
  destruct (env w !! "LINUX_CSC_LINK") as [lnk|] eqn:El; [|discriminate].
  destruct (env w !! "LINUX_CSC_KEY_PASSWORD") as [pass|] eqn:Ep; [|discriminate].
  exists lnk, pass. repeat split.
  run. rewrite El, Ep, Hl, Hp. cbn [orb default from_option id].
  destruct (files w !! realpath w lnk) as [data|]; [|reflexivity].
  unfold key_of_bundle.
  rewrite Base64Facts.decode64_toString_base64.
  destruct (asn1_fromDer _); [|reflexivity].
  destruct (pkcs12FromAsn1 _ _); [|reflexivity].
  now destruct (pkcs12.getBags_localKeyIdHex _ _).
Qed.

Lemma config_missing_dec (w : World) : config_missing w \/ ~ config_missing w.
Proof.
  rewrite <- config_missing_spec.
  destruct (falsy _ || falsy _); [now left|right; discriminate].
Qed.

(** [getPrivateKey] reads the world, it only adds to the trace; and what
    it returns does not depend on the trace. *)
Lemma getPrivateKey_log (ev : event) (w : World) :
  getPrivateKey (log_event ev w) =
  (fst (getPrivateKey w),
   {| env := env w; realpath := realpath w; files := files w;
      write_oracle := write_oracle w;
      trace := (trace w ++ [ev]) ++ drop (length (trace w)) (trace (snd (getPrivateKey w))) |}).
Proof.
  destruct (config_missing_dec w) as [H|H].
  - rewrite (getPrivateKey_missing w H).
    rewrite getPrivateKey_missing by exact H. cbn [fst snd].
    rewrite drop_all, app_nil_r. reflexivity.
  - destruct (getPrivateKey_configured w H) as (lnk & pass & El & Ep & ->).
    destruct (getPrivateKey_configured (log_event ev w) H) as (lnk' & pass' & El' & Ep' & ->).
    cbn [realpath env files log_event] in *. rewrite El in El'. rewrite Ep in Ep'.
    injection El' as <-. injection Ep' as <-. cbn [realpath fst snd trace log_event].
    rewrite drop_app_length. reflexivity.
Qed.

Lemma getPrivateKey_frame (w : World) :
  env (snd (getPrivateKey w)) = env w
  /\ files (snd (getPrivateKey w)) = files w
  /\ write_oracle (snd (getPrivateKey w)) = write_oracle w
  /\ exists evs, trace (snd (getPrivateKey w)) = trace w ++ evs
                 /\ Forall (fun ev => ~ is_write ev) evs.
Proof.
  destruct (config_missing_dec w) as [H|H].
  - rewrite (getPrivateKey_missing w H). cbn [snd]. repeat split.
    exists []. now rewrite app_nil_r.
  - destruct (getPrivateKey_configured w H) as (lnk & pass & _ & _ & ->).
    cbn [realpath snd env files write_oracle trace log_event]. repeat split.
    exists [EvRead lnk]. split; [reflexivity|]. repeat constructor. auto.
Qed.

Lemma getPrivateKey_failure (w : World) (e : error) :
  fst (getPrivateKey w) = Throw e -> early_failure e.
Proof.
  destruct (config_missing_dec w) as [H|H].
  - rewrite (getPrivateKey_missing w H). intros [= <-]. constructor.
  - destruct (getPrivateKey_configured w H) as (lnk & pass & _ & _ & ->).
    cbn [fst]. unfold key_of_bundle.
    repeat case_match; intros [= <-]; constructor.
Qed.

(** The run of [signer], step by step. *)
Lemma signer_run (filePath : string) (w : World) :
  signer filePath w =
  let w1 := log_event (EvRead filePath) (log_event (announce filePath) w) in
  match files w !! realpath w filePath with
  | None => (Throw (FsError OpRead filePath), w1)
  | Some data =>
      match getPrivateKey w1 with
      | (Throw e, w2) => (Throw e, w2)
      | (Return None, w2) =>
          (Throw (TypeError "Cannot read property 'sign' of undefined"), w2)
      | (Return (Some k), w2) =>
          match RSASSA_PKCS1_V1_5_SIGN k (SHA512 data) with
          | None => (Throw (ForgeError "privateKey.sign"), w2)
          | Some sig => writeFileSync (sigOutPath filePath) sig w2
          end
      end
  end.
Proof.
  cbv zeta. unfold signer at 1, bind at 1 2, console_log, readFileSync.
  cbn [realpath files log_event].
  destruct (files w !! realpath w filePath) as [data|]; [|reflexivity].
  unfold bind at 1. fold (announce filePath).
  destruct (getPrivateKey _) as [[[k|]|e] w2]; try reflexivity.
  unfold privateKey_sign, bind, forge_call, md_digest, md_update, md_sha512_create.
  cbn [app]. rewrite Base64Facts.Buffer_from_toString_binary.
  destruct (RSASSA_PKCS1_V1_5_SIGN k (SHA512 data)) as [sig|]; [|reflexivity].
  unfold ret. now rewrite Base64Facts.Buffer_from_toString_binary.
Qed.

End SignerFacts.

(** * The claims *)

Section Claims.
Context `{Prim : Primitives}.

(** C1, as amended.  When a configuration value is absent or empty, [signer]
    fails and changes no file: it has announced the file and read the
    target, nothing else; the error is the configuration error when the
    target could be read and the read error of the target otherwise. *)
Theorem signer_config_missing (filePath : string) (w : World) :
  config_missing w ->
  files (snd (signer filePath w)) = files w
  /\ trace (snd (signer filePath w))
     = trace w ++ [announce filePath; EvRead filePath]
  /\ (is_Some (files w !! realpath w filePath)
      /\ fst (signer filePath w) = Throw (JsError missing_env_message)
      \/ files w !! realpath w filePath = None
         /\ fst (signer filePath w) = Throw (FsError OpRead filePath)).
Proof.
  intros H. rewrite signer_run. cbv zeta.
  destruct (files w !! realpath w filePath) as [data|] eqn:E.
  - rewrite getPrivateKey_missing by exact H.
    cbn [realpath fst snd files trace log_event]. rewrite <- app_assoc.
    repeat split. left. eauto.
  - cbn [realpath fst snd files trace log_event]. rewrite <- app_assoc.
    repeat split. right. eauto.
Qed.

(** C2. With a bundle in which no bag has the identifier, [getPrivateKey]
    stops at [bag[0].key] with the engine's TypeError for a property read
    on [undefined]; it returns no key, and [signer] writes no file. *)
Theorem getPrivateKey_no_matching_bag
    (w : World) (lnk pass : string) (data : Buffer)
    (p12Asn1 : Asn1) (p12 : pkcs12.Pfx PrivateKey) :
  env w !! "LINUX_CSC_LINK" = Some lnk -> lnk <> "" ->
  env w !! "LINUX_CSC_KEY_PASSWORD" = Some pass -> pass <> "" ->
  files w !! realpath w lnk = Some data ->
  asn1_fromDer (Buffer_toString_binary data) = Some p12Asn1 ->
  pkcs12FromAsn1 p12Asn1 pass = Some p12 ->
  pkcs12.getBags_localKeyIdHex p12 localKeyIdHex = [] ->
  getPrivateKey w
  = (Throw (TypeError "Cannot read property 'key' of undefined"),
     log_event (EvRead lnk) w)
  /\ forall filePath,
       is_Some (files w !! realpath w filePath) ->
       fst (signer filePath w)
       = Throw (TypeError "Cannot read property 'key' of undefined")
       /\ files (snd (signer filePath w)) = files w.
Proof.
  intros El Hl Ep Hp Hd Hder Hpfx Hbags.
  assert (Hcfg : ~ config_missing w).
  { unfold config_missing, absent_or_empty. rewrite El, Ep.
    intros [[H|H]|[H|H]]; congruence. }
  assert (Hkey : forall w', env w' = env w -> realpath w' = realpath w ->
            files w' = files w ->
            getPrivateKey w'
            = (Throw (TypeError "Cannot read property 'key' of undefined"),
               log_event (EvRead lnk) w')).
  { intros w' He Hr Hf.
    assert (Hcfg' : ~ config_missing w') by (unfold config_missing; now rewrite He).
    destruct (getPrivateKey_configured w' Hcfg') as (lnk' & pass' & El' & Ep' & ->).
    rewrite He, El in El'. rewrite He, Ep in Ep'.
    injection El' as <-. injection Ep' as <-.
    rewrite Hf, Hr, Hd. unfold key_of_bundle. now rewrite Hder, Hpfx, Hbags. }
  split; [now apply Hkey|].
  intros filePath [target Ht]. rewrite signer_run. cbv zeta.
  rewrite Ht, Hkey by reflexivity. now split.
Qed.

(** C3. The bytes in the signature file are the RSASSA-PKCS1-v1_5 signature,
    with the extracted key, of the SHA-512 digest of the bytes of the file:
    with a readable file, an extracted key, a signature and a write that
    completes, [signer] returns and the file holds the signature; and
    [signer] returns in no other way. *)
Theorem signer_signature (filePath : string) (w : World) :
  (forall data k sig,
      files w !! realpath w filePath = Some data ->
      fst (getPrivateKey w) = Return (Some k) ->
      RSASSA_PKCS1_V1_5_SIGN k (SHA512 data) = Some sig ->
      write_oracle w (sigOutPath filePath) = WriteDone ->
      fst (signer filePath w) = Return tt
      /\ files (snd (signer filePath w)) !! realpath w (sigOutPath filePath) = Some sig)
  /\ (fst (signer filePath w) = Return tt ->
      exists data k sig,
        files w !! realpath w filePath = Some data
        /\ fst (getPrivateKey w) = Return (Some k)
        /\ RSASSA_PKCS1_V1_5_SIGN k (SHA512 data) = Some sig
        /\ write_oracle w (sigOutPath filePath) = WriteDone
        /\ files (snd (signer filePath w)) !! realpath w (sigOutPath filePath) = Some sig).
Proof.
  rewrite signer_run. cbv zeta. split.
  - intros data k sig Hd Hk Hs Hw. rewrite Hd, !getPrivateKey_log, Hk.
    cbn [realpath fst snd env files write_oracle trace log_event]. rewrite Hs.
    unfold writeFileSync. cbn [write_oracle]. rewrite Hw.
    cbn [realpath fst snd files set_file log_event]. split; [reflexivity|].
    apply lookup_insert_eq.
  - destruct (files w !! realpath w filePath) as [data|] eqn:Hd; [|discriminate].
    rewrite !getPrivateKey_log.
    destruct (fst (getPrivateKey w)) as [[k|]|e] eqn:Hk; try discriminate.
    cbn [realpath fst snd env files write_oracle trace log_event].
    destruct (RSASSA_PKCS1_V1_5_SIGN k (SHA512 data)) as [sig|] eqn:Hs;
      [|discriminate].
    unfold writeFileSync. cbn [write_oracle].
    destruct (write_oracle w (sigOutPath filePath)) eqn:Hw; try discriminate.
    intros _. exists data, k, sig. repeat split; try assumption.
    cbn [realpath fst snd files set_file log_event]. apply lookup_insert_eq.
Qed.

(** C4, as amended.  The signature path is [path.join] of the directory of
    the input and of its file name with [-sig.bin] appended.  For an
    input that does not end with a separator this is the normal form of
    the input path with the suffix appended, and a separator at the end
    of the input counts for nothing; so the file name is the one of the
    input with the suffix and the directory is the one of the input, in
    normal form.  For an input that [path.normalize] leaves as it is and
    that does not end with a separator, it is the input path with the
    suffix appended, as for [/a/b/artifact.bin]. *)
Theorem sigOutPath_spec :
  (forall filePath,
      sigOutPath filePath
      = Path.join (Path.dirname filePath) (Path.basename filePath +:+ "-sig.bin"))
  /\ (forall filePath,
         Path.ends_with_slash filePath = false ->
         sigOutPath filePath = Path.normalize (filePath +:+ "-sig.bin"))
  /\ (forall filePath,
         filePath <> "" -> sigOutPath (filePath +:+ "/") = sigOutPath filePath)
  /\ (forall filePath,
         Path.basename (sigOutPath filePath)
         = Path.basename filePath +:+ "-sig.bin")
  /\ (forall filePath,
         Path.normalize (Path.dirname filePath) = Path.dirname (sigOutPath filePath)
         \/ Path.normalize (Path.dirname filePath)
            = Path.dirname (sigOutPath filePath) +:+ "/")
  /\ (forall filePath,
         Path.normalize filePath = filePath ->
         Path.ends_with_slash filePath = false ->
         sigOutPath filePath = filePath +:+ "-sig.bin")
  /\ sigOutPath "/a/b/artifact.bin" = "/a/b/artifact.bin-sig.bin".
Proof.
  split; [reflexivity|].
  split.
  { intros p Hp. rewrite SigPathFacts.sigOutPath_chars_eq.
    unfold Path.normalize, Path.lift1. f_equal.
    rewrite SigPathFacts.list_ascii_of_string_app.
    now apply SigPathMore.sigOutPath_chars_normalize. }
  split.
  { intros p Hne. rewrite !SigPathFacts.sigOutPath_chars_eq. f_equal.
    rewrite SigPathFacts.list_ascii_of_string_app.
    change (list_ascii_of_string "/") with ["/"%char].
    unfold sigOutPath_chars.
    rewrite SigPathMore.basename_trailing_sep, SigPathMore.dirname_trailing_sep;
      [reflexivity|].
    intros E. apply Hne. rewrite <- (string_of_list_ascii_of_string p).
    now rewrite E. }
  split; [exact SigPathFacts.basename_sigOutPath|].
  split.
  { intros p. rewrite SigPathFacts.sigOutPath_chars_eq.
    unfold Path.normalize, Path.dirname, Path.lift1.
    rewrite !list_ascii_of_string_of_list_ascii.
    destruct (SigPathMore.dirname_sigOutPath_chars (list_ascii_of_string p))
      as [E|E]; rewrite E; [now left|right].
    now rewrite SigPathFacts.string_of_list_ascii_app. }
  split; [exact SigPathFacts.sigOutPath_normalized|reflexivity].
Qed.

(** C5. [getPrivateKey] throws the configuration error exactly when one of
    [LINUX_CSC_LINK], [LINUX_CSC_KEY_PASSWORD] is absent or empty, and then
    the world is left as it was: the error comes before any read of the
    bundle. *)
Theorem getPrivateKey_config_error (w : World) :
  (fst (getPrivateKey w) = Throw (JsError missing_env_message)
   <-> config_missing w)
  /\ (config_missing w -> snd (getPrivateKey w) = w).
Proof.
  split; [split|].
  - intros E. destruct (config_missing_dec w) as [H|H]; [exact H|].
    destruct (getPrivateKey_configured w H) as (lnk & pass & _ & _ & R).
    rewrite R in E. cbn [fst] in E. unfold key_of_bundle in E.
    repeat case_match; discriminate.
  - intros H. now rewrite getPrivateKey_missing.
  - intros H. now rewrite getPrivateKey_missing.
Qed.

(** C7. A run of [signer] that fails for another reason than the write of
    the signature file itself has failed in one of the listed ways, before
    [writeFileSync]: it has changed no file and has not begun any write. *)
Theorem signer_failure_before_write (filePath : string) (w : World) (e : error) :
  fst (signer filePath w) = Throw e ->
  e <> FsError OpWrite (sigOutPath filePath) ->
  early_failure e
  /\ files (snd (signer filePath w)) = files w
  /\ exists evs, trace (snd (signer filePath w)) = trace w ++ evs
                 /\ Forall (fun ev => ~ is_write ev) evs.
Proof.
  rewrite signer_run. cbv zeta.
  set (w1 := log_event (EvRead filePath) (log_event (announce filePath) w)).
  assert (Hw1 : files w1 = files w /\
                trace w1 = trace w ++ [announce filePath; EvRead filePath]).
  { subst w1. cbn [realpath files trace log_event]. now rewrite <- app_assoc. }
  destruct Hw1 as [Hf1 Ht1].
  assert (Hnw : Forall (fun ev => ~ is_write ev) [announce filePath; EvRead filePath])
    by (repeat constructor; auto).
  destruct (files w !! realpath w filePath) as [data|].
  2:{ intros [= <-] _. cbn [snd]. split; [constructor|]. split; [exact Hf1|]. eauto. }
  destruct (getPrivateKey_frame w1) as (_ & Hf2 & Ho2 & evs & Ht2 & Hevs).
  pose proof (getPrivateKey_failure w1) as Hcause.
  assert (Hkeep : files (snd (getPrivateKey w1)) = files w /\
                  exists evs', trace (snd (getPrivateKey w1)) = trace w ++ evs'
                               /\ Forall (fun ev => ~ is_write ev) evs').
  { split; [congruence|]. exists ([announce filePath; EvRead filePath] ++ evs).
    split; [rewrite Ht2, Ht1; now rewrite <- app_assoc|].
    apply Forall_app; auto. }
  destruct (getPrivateKey w1) as [[[k|]|e'] w2]; cbn [fst snd] in *.
  - destruct (RSASSA_PKCS1_V1_5_SIGN k (SHA512 data)) as [sig|].
    + unfold writeFileSync.
      destruct (write_oracle w2 (sigOutPath filePath)); cbn [fst]; intros E Hne;
        try discriminate; injection E as <-; contradiction.
    + intros [= <-] _. split; [constructor|exact Hkeep].
  - intros [= <-] _. split; [constructor|exact Hkeep].
  - intros [= <-] _. split; [now apply Hcause|exact Hkeep].
Qed.

(** C8, as amended.  A run of [signer] that returns has read the target and
    the bundle and has written one file, the file that the signature path
    names, new or in place of what was there, and what it wrote is the
    signature.  Every other file is as before, and so are the environment
    and the names: the target and the bundle are as before unless the
    signature path names the same file as they do. *)
Theorem signer_success_frame (filePath : string) (w : World) :
  fst (signer filePath w) = Return tt ->
  exists lnk data k sig,
    env w !! "LINUX_CSC_LINK" = Some lnk
    /\ files w !! realpath w filePath = Some data
    /\ RSASSA_PKCS1_V1_5_SIGN k (SHA512 data) = Some sig
    /\ files (snd (signer filePath w))
       = <[realpath w (sigOutPath filePath) := sig]> (files w)
    /\ trace (snd (signer filePath w))
       = trace w ++ [announce filePath; EvRead filePath; EvRead lnk;
                     EvWrite (sigOutPath filePath) sig]
    /\ env (snd (signer filePath w)) = env w
    /\ realpath (snd (signer filePath w)) = realpath w
    /\ sigOutPath filePath <> filePath
    /\ (forall name, name <> realpath w (sigOutPath filePath) ->
                     files (snd (signer filePath w)) !! name = files w !! name)
    /\ (realpath w filePath <> realpath w (sigOutPath filePath) ->
        files (snd (signer filePath w)) !! realpath w filePath = Some data)
    /\ (realpath w lnk <> realpath w (sigOutPath filePath) ->
        files (snd (signer filePath w)) !! realpath w lnk
        = files w !! realpath w lnk).
Proof.
  rewrite signer_run. cbv zeta.
  destruct (files w !! realpath w filePath) as [data|] eqn:Hd; [|discriminate].
  rewrite !getPrivateKey_log.
  destruct (config_missing_dec w) as [H|H].
  { rewrite (getPrivateKey_missing w H). discriminate. }
  destruct (getPrivateKey_configured w H) as (lnk & pass & El & _ & ->).
  cbn [realpath fst snd trace log_event].
  destruct (match files w !! realpath w lnk with
            | Some data0 => key_of_bundle data0 pass
            | None => Throw (FsError OpRead lnk)
            end) as [[k|]|e]; try discriminate.
  cbn [realpath fst snd env files write_oracle trace log_event].
  destruct (RSASSA_PKCS1_V1_5_SIGN k (SHA512 data)) as [sig|] eqn:Hs;
    [|discriminate].
  unfold writeFileSync. cbn [write_oracle].
  destruct (write_oracle w (sigOutPath filePath)); try discriminate.
  intros _. exists lnk, data, k, sig.
  cbn [realpath fst snd env files trace set_file log_event].
  pose proof (SigPathFacts.sigOutPath_fresh filePath) as Hfresh.
  repeat split; try assumption.
  - rewrite !drop_app_length. now rewrite <- !app_assoc.
  - intros name Hn. apply lookup_insert_ne. congruence.
  - intros Hn. rewrite lookup_insert_ne by congruence. exact Hd.
  - intros Hn. apply lookup_insert_ne. congruence.
Qed.

(** C9. The read of [bag[0].key] meets an absent [bag[0]] exactly when no
    bag of the bundle has the identifier; with a bag that has it, the key
    of the first such bag comes back. *)
Theorem first_bag_key_safe (p12 : pkcs12.Pfx PrivateKey) (w : World) :
  let matching :=
    exists sc bag, In sc p12 /\ In bag (pkcs12.safeBags sc)
      /\ pkcs12.has_localKeyId (forge_util.hexToBytes localKeyIdHex) bag = true in
  let bags := pkcs12.getBags_localKeyIdHex p12 localKeyIdHex in
  (matching <-> exists bag, head bags = Some bag
                            /\ first_bag_key bags w = (Return (pkcs12.key bag), w))
  /\ (~ matching <->
      first_bag_key bags w
      = (Throw (TypeError "Cannot read property 'key' of undefined"), w)).
Proof.
  cbv zeta.
  set (bags := pkcs12.getBags_localKeyIdHex p12 localKeyIdHex).
  assert (Hm : (exists sc bag, In sc p12 /\ In bag (pkcs12.safeBags sc)
                  /\ pkcs12.has_localKeyId (forge_util.hexToBytes localKeyIdHex) bag = true)
               <-> bags <> []).
  { subst bags. unfold pkcs12.getBags_localKeyIdHex. split.
    - intros (sc & bag & Hsc & Hbag & Hid) E.
      assert (Hin : In bag (List.filter
                     (pkcs12.has_localKeyId (forge_util.hexToBytes localKeyIdHex))
                     (concat (map pkcs12.safeBags p12)))).
      { apply filter_In. split; [|exact Hid].
        apply in_concat. exists (pkcs12.safeBags sc). split; [|exact Hbag].
        now apply in_map. }
      rewrite E in Hin. contradiction.
    - intros Hne.
      destruct (List.filter _ _) as [|bag rest] eqn:E; [congruence|].
      assert (Hin : In bag (bag :: rest)) by now left.
      rewrite <- E in Hin. apply filter_In in Hin as [Hin Hid].
      apply in_concat in Hin as (bs & Hbs & Hbag).
      apply in_map_iff in Hbs as (sc & <- & Hsc). eauto. }
  rewrite Hm. destruct bags as [|bag rest]; cbn [first_bag_key head]; unfold ret, throw.
  - split; split.
    + congruence.
    + intros (bag & Hb & _). discriminate.
    + reflexivity.
    + intros _ H. congruence.
  - split; split.
    + intros _. eauto.
    + discriminate.
    + intros H. exfalso. apply H. discriminate.
    + discriminate.
Qed.

(** C10. Decoding the base64 text of the bundle gives back its bytes, one
    character per byte: [forge.asn1.fromDer] gets the content of the file. *)
Theorem bundle_base64_roundtrip (p12file : Buffer) :
  forge_util.decode64 (Buffer_toString_base64 p12file)
  = Buffer_toString_binary p12file
  /\ Buffer_from_binary (forge_util.decode64 (Buffer_toString_base64 p12file))
     = p12file.
Proof.
  rewrite Base64Facts.decode64_toString_base64. split; [reflexivity|].
  apply Base64Facts.Buffer_from_toString_binary.
Qed.

End Claims.

(** ** Concrete runs *)

Lemma sigOutPath_spec_witness :
  sigOutPath "./artifact.bin" = Path.normalize ("./artifact.bin" +:+ "-sig.bin")
  /\ sigOutPath ("/a/b/artifact.bin" +:+ "/") = sigOutPath "/a/b/artifact.bin"
  /\ sigOutPath "../dist/tutanota.AppImage"
     = "../dist/tutanota.AppImage" +:+ "-sig.bin".
Proof.
  split; [|split].
  - apply (proj1 (proj2 sigOutPath_spec) "./artifact.bin"). reflexivity.
  - apply (proj1 (proj2 (proj2 sigOutPath_spec)) "/a/b/artifact.bin"). discriminate.
  - apply (proj1 (proj2 (proj2 (proj2 (proj2 (proj2 sigOutPath_spec)))))
             "../dist/tutanota.AppImage"); reflexivity.
Defined.

(** C4, the claim as stated fails on a path that is not in normal form:
    [path.join] drops the leading [./]. *)
Lemma sigOutPath_not_appended :
  sigOutPath "./artifact.bin" = "artifact.bin-sig.bin"
  /\ sigOutPath "./artifact.bin" <> "./artifact.bin" +:+ "-sig.bin".
Proof. split; [reflexivity|discriminate]. Qed.

(** C1, the claim as stated fails: without the pass phrase the target is
    read before the configuration error is thrown, and when the target
    cannot be read the error is the one of the read. *)
Lemma signer_reads_target_before_config :
  config_missing Fixture.world_no_password
  /\ @signer Fixture.forge Fixture.artifact Fixture.world_no_password
     = (Throw (JsError missing_env_message),
        log_event (EvRead Fixture.artifact)
          (log_event (announce Fixture.artifact) Fixture.world_no_password))
  /\ config_missing Fixture.world_empty
  /\ fst (@signer Fixture.forge Fixture.artifact Fixture.world_empty)
     = Throw (FsError OpRead Fixture.artifact).
Proof.
  repeat split.
  - right. left. reflexivity.
  - left. left. reflexivity.
Qed.

Lemma signer_config_missing_witness :
  files (snd (@signer Fixture.forge Fixture.artifact Fixture.world_no_password))
  = files Fixture.world_no_password
  /\ trace (snd (@signer Fixture.forge Fixture.artifact Fixture.world_no_password))
     = trace Fixture.world_no_password
       ++ [announce Fixture.artifact; EvRead Fixture.artifact]
  /\ (is_Some (files Fixture.world_no_password !! Fixture.artifact)
      /\ fst (@signer Fixture.forge Fixture.artifact Fixture.world_no_password)
         = Throw (JsError missing_env_message)
      \/ files Fixture.world_no_password !! Fixture.artifact = None
         /\ fst (@signer Fixture.forge Fixture.artifact Fixture.world_no_password)
            = Throw (FsError OpRead Fixture.artifact)).
Proof.
  apply (@signer_config_missing Fixture.forge Fixture.artifact
           Fixture.world_no_password).
  right. left. reflexivity.
Defined.

Lemma getPrivateKey_config_error_witness :
  snd (@getPrivateKey Fixture.forge Fixture.world_no_password)
  = Fixture.world_no_password.
Proof.
  apply (proj2 (@getPrivateKey_config_error Fixture.forge Fixture.world_no_password)).
  right. left. reflexivity.
Defined.

Lemma getPrivateKey_no_matching_bag_witness :
  @getPrivateKey Fixture.forge Fixture.world_renewed_cert
  = (Throw (TypeError "Cannot read property 'key' of undefined"),
     log_event (EvRead Fixture.bundle) Fixture.world_renewed_cert)
  /\ forall filePath,
       is_Some (files Fixture.world_renewed_cert !! filePath) ->
       fst (@signer Fixture.forge filePath Fixture.world_renewed_cert)
       = Throw (TypeError "Cannot read property 'key' of undefined")
       /\ files (snd (@signer Fixture.forge filePath Fixture.world_renewed_cert))
          = files Fixture.world_renewed_cert.
Proof.
  apply (@getPrivateKey_no_matching_bag Fixture.forge Fixture.world_renewed_cert
           Fixture.bundle "secret" [x30; x02; x00] [48; 2; 0]
           [ {| pkcs12.encrypted := true;
                pkcs12.safeBags := [Fixture.other_bag] |} ]);
    try reflexivity; discriminate.
Defined.

Lemma signer_signature_witness :
  fst (@signer Fixture.forge Fixture.artifact Fixture.world) = Return tt
  /\ files (snd (@signer Fixture.forge Fixture.artifact Fixture.world))
       !! sigOutPath Fixture.artifact
     = Some [x07; x03].
Proof.
  apply (proj1 (@signer_signature Fixture.forge Fixture.artifact Fixture.world)
           [x01; x02; x03] 7%nat [x07; x03]); reflexivity.
Defined.

Lemma signer_failure_before_write_witness :
  early_failure (TypeError "Cannot read property 'key' of undefined")
  /\ files (snd (@signer Fixture.forge Fixture.artifact Fixture.world_renewed_cert))
     = files Fixture.world_renewed_cert
  /\ exists evs,
       trace (snd (@signer Fixture.forge Fixture.artifact Fixture.world_renewed_cert))
       = trace Fixture.world_renewed_cert ++ evs
       /\ Forall (fun ev => ~ is_write ev) evs.
Proof.
  apply (@signer_failure_before_write Fixture.forge Fixture.artifact
           Fixture.world_renewed_cert
           (TypeError "Cannot read property 'key' of undefined")).
  - reflexivity.
  - discriminate.
Defined.

Lemma signer_success_frame_witness :
  exists lnk data k sig,
    env Fixture.world !! "LINUX_CSC_LINK" = Some lnk
    /\ files Fixture.world !! realpath Fixture.world Fixture.artifact = Some data
    /\ Fixture.sign_with k (Fixture.digest data) = Some sig
    /\ files (snd (@signer Fixture.forge Fixture.artifact Fixture.world))
       = <[realpath Fixture.world (sigOutPath Fixture.artifact) := sig]>
           (files Fixture.world)
    /\ trace (snd (@signer Fixture.forge Fixture.artifact Fixture.world))
       = trace Fixture.world
         ++ [announce Fixture.artifact; EvRead Fixture.artifact; EvRead lnk;
             EvWrite (sigOutPath Fixture.artifact) sig]
    /\ env (snd (@signer Fixture.forge Fixture.artifact Fixture.world))
       = env Fixture.world
    /\ realpath (snd (@signer Fixture.forge Fixture.artifact Fixture.world))
       = realpath Fixture.world
    /\ sigOutPath Fixture.artifact <> Fixture.artifact
    /\ (forall name,
          name <> realpath Fixture.world (sigOutPath Fixture.artifact) ->
          files (snd (@signer Fixture.forge Fixture.artifact Fixture.world)) !! name
          = files Fixture.world !! name)
    /\ (realpath Fixture.world Fixture.artifact
        <> realpath Fixture.world (sigOutPath Fixture.artifact) ->
        files (snd (@signer Fixture.forge Fixture.artifact Fixture.world))
          !! realpath Fixture.world Fixture.artifact = Some data)
    /\ (realpath Fixture.world lnk
        <> realpath Fixture.world (sigOutPath Fixture.artifact) ->
        files (snd (@signer Fixture.forge Fixture.artifact Fixture.world))
          !! realpath Fixture.world lnk
        = files Fixture.world !! realpath Fixture.world lnk).
Proof.
  apply (@signer_success_frame Fixture.forge Fixture.artifact Fixture.world).
  reflexivity.
Defined.

(** C8, the claim as stated fails when the signature file is there already
    (the run replaces it, no file is new), when the bundle sits at the
    signature path or at another spelling of it (the run replaces the
    bundle), and when the signature path is a link to the target (the run
    replaces the target). *)
Lemma signer_replaces_existing_file :
  files Fixture.world_resigned !! sigOutPath Fixture.artifact = Some [x00]
  /\ fst (@signer Fixture.forge Fixture.artifact Fixture.world_resigned) = Return tt
  /\ dom (files (snd (@signer Fixture.forge Fixture.artifact Fixture.world_resigned)))
     = dom (files Fixture.world_resigned)
  /\ env Fixture.world_bundle_alias !! "LINUX_CSC_LINK"
     = Some (sigOutPath Fixture.artifact)
  /\ files Fixture.world_bundle_alias !! sigOutPath Fixture.artifact
     = Some [x30; x01; x00]
  /\ fst (@signer Fixture.forge Fixture.artifact Fixture.world_bundle_alias)
     = Return tt
  /\ files (snd (@signer Fixture.forge Fixture.artifact Fixture.world_bundle_alias))
       !! sigOutPath Fixture.artifact
     = Some [x07; x03]
  /\ env Links.world_respelled_bundle !! "LINUX_CSC_LINK" = Some Links.respelled
  /\ Links.respelled <> sigOutPath Fixture.artifact
  /\ files Links.world_respelled_bundle
       !! realpath Links.world_respelled_bundle Links.respelled
     = Some [x30; x01; x00]
  /\ fst (@signer Fixture.forge Fixture.artifact Links.world_respelled_bundle)
     = Return tt
  /\ files (snd (@signer Fixture.forge Fixture.artifact Links.world_respelled_bundle))
       !! realpath Links.world_respelled_bundle Links.respelled
     = Some [x07; x03]
  /\ files Links.world_link_to_target
       !! realpath Links.world_link_to_target Fixture.artifact
     = Some [x01; x02; x03]
  /\ fst (@signer Fixture.forge Fixture.artifact Links.world_link_to_target)
     = Return tt
  /\ files (snd (@signer Fixture.forge Fixture.artifact Links.world_link_to_target))
       !! realpath Links.world_link_to_target Fixture.artifact
     = Some [x07; x03].
Proof. repeat split; try (vm_compute; reflexivity). discriminate. Qed.

(** A write that fails half way leaves a part of the signature behind:
    [writeFileSync] is not atomic; the failures before it leave nothing. *)
Example signer_torn_write :
  fst (@signer Fixture.forge Fixture.artifact
         {| env := env Fixture.world; realpath := Fixture.plain_names;
            files := files Fixture.world;
            write_oracle := fun _ => WriteTorn 1; trace := [] |})
  = Throw (FsError OpWrite (sigOutPath Fixture.artifact))
  /\ files (snd (@signer Fixture.forge Fixture.artifact
                  {| env := env Fixture.world; realpath := Fixture.plain_names;
            files := files Fixture.world;
                     write_oracle := fun _ => WriteTorn 1; trace := [] |}))
       !! sigOutPath Fixture.artifact
     = Some [x07].
Proof. split; reflexivity. Qed.

(** ** Checks of the model of [path], [Buffer] and [forge.util] *)

Example basename_file : Path.basename "/a/b/artifact.bin" = "artifact.bin".
Proof. reflexivity. Qed.

Example basename_trailing : Path.basename "/a/b/" = "b".
Proof. reflexivity. Qed.

Example basename_root : Path.basename "/" = "".
Proof. reflexivity. Qed.

Example dirname_file : Path.dirname "/a/b/artifact.bin" = "/a/b".
Proof. reflexivity. Qed.

Example dirname_double_sep : Path.dirname "a//b" = "a/".
Proof. reflexivity. Qed.

Example dirname_two_roots : Path.dirname "//a" = "//".
Proof. reflexivity. Qed.

Example dirname_top : Path.dirname "/a" = "/".
Proof. reflexivity. Qed.

Example dirname_relative : Path.dirname "a" = ".".
Proof. reflexivity. Qed.

Example dirname_trailing : Path.dirname "a/b/" = "a".
Proof. reflexivity. Qed.

Example normalize_up : Path.normalize "/foo/bar//baz/asdf/quux/.." = "/foo/bar/baz/asdf".
Proof. reflexivity. Qed.

Example normalize_above : Path.normalize "../../a/./b/../c/" = "../../a/c/".
Proof. reflexivity. Qed.

Example normalize_above_root : Path.normalize "/../a" = "/a".
Proof. reflexivity. Qed.

Example normalize_here : Path.normalize "a/.." = ".".
Proof. reflexivity. Qed.

Example join_up : Path.join "/foo" "bar/../baz" = "/foo/baz".
Proof. reflexivity. Qed.

Example sigOutPath_trailing_sep :
  sigOutPath "/a/b/artifact.bin/" = "/a/b/artifact.bin-sig.bin".
Proof. reflexivity. Qed.

Example base64_Man : Buffer_toString_base64 [x4d; x61; x6e] = [84; 87; 70; 117].
Proof. reflexivity. Qed.

Example base64_padding : Buffer_toString_base64 [x4d] = [84; 81; 61; 61].
Proof. reflexivity. Qed.

Example localKeyId_bytes :
  forge_util.hexToBytes localKeyIdHex
  = [111; 239; 238; 74; 147; 99; 75; 149; 221; 130; 151; 113; 67; 214;
     150; 101; 202; 145; 128; 210].
Proof. reflexivity. Qed.

Example signer_run_example :
  @signer Fixture.forge Fixture.artifact Fixture.world
  = (Return tt,
     set_file "/a/b/artifact.bin-sig.bin" [x07; x03]
       (log_event (EvWrite "/a/b/artifact.bin-sig.bin" [x07; x03])
          (log_event (EvRead Fixture.bundle)
             (log_event (EvRead Fixture.artifact)
                (log_event (EvLog ["Signing"; "artifact.bin"; "..."])
                   Fixture.world))))).
Proof. vm_compute. reflexivity. Qed.

(** * More about [getPrivateKey] and [signer] *)

Section KeyExtraction.
Context `{Prim : Primitives}.

Lemma configured_not_missing (w : World) (lnk pass : string) :
  env w !! "LINUX_CSC_LINK" = Some lnk -> lnk <> "" ->
  env w !! "LINUX_CSC_KEY_PASSWORD" = Some pass -> pass <> "" ->
  ~ config_missing w.
Proof.
  intros El Hl Ep Hp. unfold config_missing, absent_or_empty. rewrite El, Ep.
  intros [[H|H]|[H|H]]; congruence.
Qed.

Lemma getPrivateKey_of_bundle (w : World) (lnk pass : string) :
  env w !! "LINUX_CSC_LINK" = Some lnk -> lnk <> "" ->
  env w !! "LINUX_CSC_KEY_PASSWORD" = Some pass -> pass <> "" ->
  getPrivateKey w =
  (match files w !! realpath w lnk with
   | None => Throw (FsError OpRead lnk)
   | Some data => key_of_bundle data pass
   end, log_event (EvRead lnk) w).
Proof.
  intros El Hl Ep Hp.
  destruct (getPrivateKey_configured w (configured_not_missing w lnk pass El Hl Ep Hp))
    as (lnk' & pass' & El' & Ep' & ->).
  rewrite El in El'. rewrite Ep in Ep'. now injection El' as <-; injection Ep' as <-.
Qed.

(** [getPrivateKey] is read-only: it leaves the environment and every file
    as they are, and the only thing it may do is one read, of the path in
    [LINUX_CSC_LINK]. *)
Theorem getPrivateKey_read_only (w : World) :
  env (snd (getPrivateKey w)) = env w
  /\ files (snd (getPrivateKey w)) = files w
  /\ write_oracle (snd (getPrivateKey w)) = write_oracle w
  /\ (trace (snd (getPrivateKey w)) = trace w
      \/ exists lnk, env w !! "LINUX_CSC_LINK" = Some lnk
                     /\ trace (snd (getPrivateKey w)) = trace w ++ [EvRead lnk]).
Proof.
  destruct (config_missing_dec w) as [H|H].
  - rewrite (getPrivateKey_missing w H). cbn [snd]. auto.
  - destruct (getPrivateKey_configured w H) as (lnk & pass & El & _ & ->).
    cbn [realpath snd env files write_oracle trace log_event]. repeat split.
    right. eauto.
Qed.

(** What [getPrivateKey] returns or throws depends on the world through the
    two variables and the bytes of the bundle only: two worlds that agree
    on these give the same outcome, whatever else their environments and
    file systems hold. *)
Theorem getPrivateKey_depends_on (w1 w2 : World) :
  env w1 !! "LINUX_CSC_LINK" = env w2 !! "LINUX_CSC_LINK" ->
  env w1 !! "LINUX_CSC_KEY_PASSWORD" = env w2 !! "LINUX_CSC_KEY_PASSWORD" ->
  (forall lnk, env w1 !! "LINUX_CSC_LINK" = Some lnk ->
               files w1 !! realpath w1 lnk = files w2 !! realpath w2 lnk) ->
  fst (getPrivateKey w1) = fst (getPrivateKey w2).
Proof.
  intros El Ep Hf.
  assert (Hiff : config_missing w1 <-> config_missing w2)
    by (unfold config_missing; now rewrite El, Ep).
  destruct (config_missing_dec w1) as [H|H].
  - rewrite (getPrivateKey_missing w1 H).
    now rewrite (getPrivateKey_missing w2) by now apply Hiff.
  - destruct (getPrivateKey_configured w1 H) as (l1 & p1 & El1 & Ep1 & ->).
    assert (H2 : ~ config_missing w2) by now rewrite <- Hiff.
    destruct (getPrivateKey_configured w2 H2) as (l2 & p2 & El2 & Ep2 & ->).
    rewrite El, El2 in El1. rewrite Ep, Ep2 in Ep1.
    injection El1 as ->. injection Ep1 as ->.
    cbn [fst]. rewrite (Hf l1) by now rewrite El. reflexivity.
Qed.

(** The failures of the bundle, in the order of the code: a bundle that
    cannot be read; bytes that are not DER; a PFX that the pass phrase does
    not open.  Each stops [getPrivateKey] after the one read of the bundle,
    and the decoders get the bytes of the file and the pass phrase as they
    are. *)
Theorem getPrivateKey_bundle_failures (w : World) (lnk pass : string) :
  env w !! "LINUX_CSC_LINK" = Some lnk -> lnk <> "" ->
  env w !! "LINUX_CSC_KEY_PASSWORD" = Some pass -> pass <> "" ->
  (files w !! realpath w lnk = None ->
   getPrivateKey w = (Throw (FsError OpRead lnk), log_event (EvRead lnk) w))
  /\ (forall data,
        files w !! realpath w lnk = Some data ->
        asn1_fromDer (Buffer_toString_binary data) = None ->
        getPrivateKey w
        = (Throw (ForgeError "asn1.fromDer"), log_event (EvRead lnk) w))
  /\ (forall data p12Asn1,
        files w !! realpath w lnk = Some data ->
        asn1_fromDer (Buffer_toString_binary data) = Some p12Asn1 ->
        pkcs12FromAsn1 p12Asn1 pass = None ->
        getPrivateKey w
        = (Throw (ForgeError "pkcs12.pkcs12FromAsn1"), log_event (EvRead lnk) w)).
Proof.
  intros El Hl Ep Hp. rewrite (getPrivateKey_of_bundle w lnk pass El Hl Ep Hp).
  repeat split.
  - now intros ->.
  - intros data -> Hder. unfold key_of_bundle. now rewrite Hder.
  - intros data p12Asn1 -> Hder Hpfx. unfold key_of_bundle. now rewrite Hder, Hpfx.
Qed.

Lemma getBags_first (p12 : pkcs12.Pfx PrivateKey)
    (before after : list (pkcs12.SafeBag PrivateKey)) (bag : pkcs12.SafeBag PrivateKey) :
  concat (map pkcs12.safeBags p12) = before ++ bag :: after ->
  Forall (fun b => pkcs12.has_localKeyId (forge_util.hexToBytes localKeyIdHex) b = false)
         before ->
  pkcs12.has_localKeyId (forge_util.hexToBytes localKeyIdHex) bag = true ->
  exists rest, pkcs12.getBags_localKeyIdHex p12 localKeyIdHex = bag :: rest.
Proof.
  intros E Hbefore Hbag. unfold pkcs12.getBags_localKeyIdHex. rewrite E.
  rewrite List.filter_app. cbn [List.filter]. rewrite Hbag.
  assert (Hnil : List.filter
                   (pkcs12.has_localKeyId (forge_util.hexToBytes localKeyIdHex))
                   before = []).
  { clear E. induction Hbefore as [|b bs Hb _ IH]; [reflexivity|].
    cbn [List.filter]. now rewrite Hb. }
  rewrite Hnil. eauto.
Qed.

(** The bag that gives the key is the first one, in the order of the file
    and across the safe contents, that has the identifier: bags before it
    without the identifier are passed over, and bags after it are not
    looked at, whether they have the identifier or not.  What comes back
    is the [key] field of that bag. *)
Theorem getPrivateKey_first_match
    (w : World) (lnk pass : string) (data : Buffer)
    (p12Asn1 : Asn1) (p12 : pkcs12.Pfx PrivateKey)
    (before after : list (pkcs12.SafeBag PrivateKey)) (bag : pkcs12.SafeBag PrivateKey) :
  env w !! "LINUX_CSC_LINK" = Some lnk -> lnk <> "" ->
  env w !! "LINUX_CSC_KEY_PASSWORD" = Some pass -> pass <> "" ->
  files w !! realpath w lnk = Some data ->
  asn1_fromDer (Buffer_toString_binary data) = Some p12Asn1 ->
  pkcs12FromAsn1 p12Asn1 pass = Some p12 ->
  concat (map pkcs12.safeBags p12) = before ++ bag :: after ->
  Forall (fun b => pkcs12.has_localKeyId (forge_util.hexToBytes localKeyIdHex) b = false)
         before ->
  pkcs12.has_localKeyId (forge_util.hexToBytes localKeyIdHex) bag = true ->
  getPrivateKey w = (Return (pkcs12.key bag), log_event (EvRead lnk) w).
Proof.
  intros El Hl Ep Hp Hd Hder Hpfx E Hbefore Hbag.
  rewrite (getPrivateKey_of_bundle w lnk pass El Hl Ep Hp), Hd.
  unfold key_of_bundle. rewrite Hder, Hpfx.
  destruct (getBags_first p12 before after bag E Hbefore Hbag) as (rest & ->).
  reflexivity.
Qed.

(** When the first bag with the identifier has no key (a certificate bag
    carries the same identifier as its key), [getPrivateKey] returns
    [undefined] without an error, and [signer] then fails at
    [privateKey.sign] with the engine's TypeError, before any write; a key
    bag with the identifier further on does not help. *)
Theorem signer_keyless_first_bag
    (w : World) (filePath lnk pass : string) (data : Buffer)
    (p12Asn1 : Asn1) (p12 : pkcs12.Pfx PrivateKey)
    (before after : list (pkcs12.SafeBag PrivateKey)) (bag : pkcs12.SafeBag PrivateKey) :
  env w !! "LINUX_CSC_LINK" = Some lnk -> lnk <> "" ->
  env w !! "LINUX_CSC_KEY_PASSWORD" = Some pass -> pass <> "" ->
  files w !! realpath w lnk = Some data ->
  asn1_fromDer (Buffer_toString_binary data) = Some p12Asn1 ->
  pkcs12FromAsn1 p12Asn1 pass = Some p12 ->
  concat (map pkcs12.safeBags p12) = before ++ bag :: after ->
  Forall (fun b => pkcs12.has_localKeyId (forge_util.hexToBytes localKeyIdHex) b = false)
         before ->
  pkcs12.has_localKeyId (forge_util.hexToBytes localKeyIdHex) bag = true ->
  pkcs12.key bag = None ->
  is_Some (files w !! realpath w filePath) ->
  fst (getPrivateKey w) = Return None
  /\ fst (signer filePath w)
     = Throw (TypeError "Cannot read property 'sign' of undefined")
  /\ files (snd (signer filePath w)) = files w.
Proof.
  intros El Hl Ep Hp Hd Hder Hpfx E Hbefore Hbag Hkey [target Ht].
  assert (Hk : forall w', env w' = env w -> realpath w' = realpath w ->
                 files w' = files w ->
                 getPrivateKey w' = (Return None, log_event (EvRead lnk) w')).
  { intros w' He Hr Hf. rewrite <- Hkey.
    apply (getPrivateKey_first_match w' lnk pass data p12Asn1 p12 before after bag);
      rewrite ?He, ?Hf, ?Hr; assumption. }
  split; [now rewrite Hk|].
  rewrite signer_run. cbv zeta. rewrite Ht, Hk by reflexivity. now split.
Qed.

End KeyExtraction.

Section Runs.
Context `{Prim : Primitives}.

Lemma getPrivateKey_names (w : World) :
  realpath (snd (getPrivateKey w)) = realpath w.
Proof.
  destruct (config_missing_dec w) as [H|H].
  - now rewrite (getPrivateKey_missing w H).
  - now destruct (getPrivateKey_configured w H) as (lnk & pass & _ & _ & ->).
Qed.

(** The footprint of [signer], whatever the outcome: the environment and
    the names of the files are not changed; no file but the one that the
    signature path names is changed; the run announces the file, reads
    the target, then may read the bundle, then may write the signature
    path, and does nothing else. *)
Theorem signer_footprint (filePath : string) (w : World) :
  env (snd (signer filePath w)) = env w
  /\ realpath (snd (signer filePath w)) = realpath w
  /\ (forall name, name <> realpath w (sigOutPath filePath) ->
                   files (snd (signer filePath w)) !! name = files w !! name)
  /\ exists evs,
       trace (snd (signer filePath w))
       = trace w ++ announce filePath :: EvRead filePath :: evs
       /\ (evs = []
           \/ exists lnk,
                env w !! "LINUX_CSC_LINK" = Some lnk
                /\ (evs = [EvRead lnk]
                    \/ exists sig,
                         evs = [EvRead lnk; EvWrite (sigOutPath filePath) sig])).
Proof.
  rewrite signer_run. cbv zeta.
  set (w1 := log_event (EvRead filePath) (log_event (announce filePath) w)).
  assert (Ht1 : trace w1 = trace w ++ [announce filePath; EvRead filePath])
    by (subst w1; cbn [trace log_event]; now rewrite <- app_assoc).
  destruct (files w !! realpath w filePath) as [data|].
  2:{ cbn [snd]. repeat split. exists []. rewrite Ht1. auto. }
  destruct (getPrivateKey_read_only w1) as (He & Hf & Ho & Ht).
  pose proof (getPrivateKey_names w1) as Hr.
  assert (Hevs : exists evs,
             trace (snd (getPrivateKey w1))
             = trace w ++ announce filePath :: EvRead filePath :: evs
             /\ (evs = [] \/ exists lnk, env w !! "LINUX_CSC_LINK" = Some lnk
                                         /\ evs = [EvRead lnk])).
  { destruct Ht as [Ht|(lnk & El & Ht)].
    - exists []. rewrite Ht, Ht1. auto.
    - exists [EvRead lnk]. rewrite Ht, Ht1, <- app_assoc. split; [reflexivity|].
      right. exists lnk. auto. }
  assert (Hstop : env (snd (getPrivateKey w1)) = env w
            /\ realpath (snd (getPrivateKey w1)) = realpath w
            /\ (forall name, name <> realpath w (sigOutPath filePath) ->
                   files (snd (getPrivateKey w1)) !! name = files w !! name)
            /\ exists evs,
                 trace (snd (getPrivateKey w1))
                 = trace w ++ announce filePath :: EvRead filePath :: evs
                 /\ (evs = []
                     \/ exists lnk,
                          env w !! "LINUX_CSC_LINK" = Some lnk
                          /\ (evs = [EvRead lnk]
                              \/ exists sig,
                                   evs = [EvRead lnk;
                                          EvWrite (sigOutPath filePath) sig]))).
  { repeat split; [exact He|exact Hr|now rewrite Hf|].
    destruct Hevs as (evs & E & [->|(lnk & El & ->)]); eauto 8. }
  destruct (getPrivateKey w1) as [[[k|]|e] w2] eqn:Hrun; cbn [fst snd] in *;
    try exact Hstop.
  destruct (RSASSA_PKCS1_V1_5_SIGN k (SHA512 data)) as [sig|]; [|exact Hstop].
  assert (Hlnk : exists lnk, env w !! "LINUX_CSC_LINK" = Some lnk
                             /\ trace w2 = trace w ++ [announce filePath;
                                                       EvRead filePath; EvRead lnk]).
  { destruct (config_missing_dec w1) as [H|H].
    - rewrite (getPrivateKey_missing w1 H) in Hrun. discriminate.
    - destruct (getPrivateKey_configured w1 H) as (lnk & pass & El & _ & R).
      rewrite R in Hrun. injection Hrun as _ <-. exists lnk.
      split; [exact El|]. cbn [trace log_event]. now rewrite Ht1, <- app_assoc. }
  destruct Hlnk as (lnk & El & Ht2).
  assert (Hr2 : realpath w2 = realpath w) by exact Hr.
  unfold writeFileSync.
  destruct (write_oracle w2 (sigOutPath filePath));
    cbn [snd env realpath files trace set_file log_event];
    (split; [exact He|]); (split; [exact Hr2|]);
    (split; [|exists [EvRead lnk; EvWrite (sigOutPath filePath) sig];
       rewrite Ht2, <- app_assoc; split; [reflexivity|right; exists lnk; eauto]]).
  - intros q Hq. rewrite Hr2, lookup_insert_ne by congruence. now rewrite Hf.
  - intros q Hq. now rewrite Hf.
  - intros q Hq. rewrite Hr2, lookup_insert_ne by congruence. now rewrite Hf.
Qed.




End Runs.

(** * More about the signature path, continued *)

(** A separator at the end of the input does not change the signature
    path: [dirname] and [basename] both pass over trailing separators. *)
Theorem sigOutPath_trailing_separator (filePath : string) :
  filePath <> "" -> sigOutPath (filePath +:+ "/") = sigOutPath filePath.
Proof.
  intros Hne. rewrite !SigPathFacts.sigOutPath_chars_eq. f_equal.
  rewrite SigPathFacts.list_ascii_of_string_app.
  change (list_ascii_of_string "/") with ["/"%char].
  unfold sigOutPath_chars.
  rewrite SigPathMore.basename_trailing_sep, SigPathMore.dirname_trailing_sep;
    [reflexivity|].
  intros E. apply Hne. rewrite <- (string_of_list_ascii_of_string filePath).
  now rewrite E.
Qed.

(** The signature path is always in normal form: [path.normalize] leaves it
    as it is, it does not end with a separator, and it is absolute exactly
    when the input is.  So the signature of a signature file goes to the
    path with the suffix twice. *)
Theorem sigOutPath_normal_form (filePath : string) :
  Path.normalize (sigOutPath filePath) = sigOutPath filePath
  /\ Path.ends_with_slash (sigOutPath filePath) = false
  /\ isAbsolute (sigOutPath filePath) = isAbsolute filePath
  /\ sigOutPath (sigOutPath filePath) = sigOutPath filePath +:+ "-sig.bin".
Proof.
  destruct (SigPathMore.sigOutPath_chars_normal_form_of (list_ascii_of_string filePath))
    as (H1 & H2 & H3).
  assert (Hn : Path.normalize (sigOutPath filePath) = sigOutPath filePath).
  { rewrite SigPathFacts.sigOutPath_chars_eq. unfold Path.normalize, Path.lift1.
    now rewrite list_ascii_of_string_of_list_ascii, H1. }
  assert (He : Path.ends_with_slash (sigOutPath filePath) = false).
  { rewrite SigPathFacts.sigOutPath_chars_eq. unfold Path.ends_with_slash.
    now rewrite list_ascii_of_string_of_list_ascii. }
  repeat split; try assumption.
  - rewrite SigPathFacts.sigOutPath_chars_eq. unfold isAbsolute.
    now rewrite list_ascii_of_string_of_list_ascii.
  - now apply SigPathFacts.sigOutPath_normalized.
Qed.

(** ** Concrete runs for the properties above *)

Lemma getPrivateKey_depends_on_witness :
  fst (@getPrivateKey Fixture.forge Fixture.world)
  = fst (@getPrivateKey Fixture.forge Fixture.world_copy).
Proof.
  apply (@getPrivateKey_depends_on Fixture.forge Fixture.world Fixture.world_copy).
  - reflexivity.
  - reflexivity.
  - intros lnk H. vm_compute in H. injection H as <-. reflexivity.
Defined.

Lemma getPrivateKey_bundle_failures_witness :
  @getPrivateKey Bundles.forge Bundles.world_no_bundle
  = (Throw (FsError OpRead Fixture.bundle),
     log_event (EvRead Fixture.bundle) Bundles.world_no_bundle)
  /\ @getPrivateKey Bundles.forge Bundles.world_not_der
     = (Throw (ForgeError "asn1.fromDer"),
        log_event (EvRead Fixture.bundle) Bundles.world_not_der)
  /\ @getPrivateKey Bundles.forge Bundles.world_wrong_password
     = (Throw (ForgeError "pkcs12.pkcs12FromAsn1"),
        log_event (EvRead Fixture.bundle) Bundles.world_wrong_password).
Proof.
  split; [|split].
  - apply (proj1 (@getPrivateKey_bundle_failures Bundles.forge
                    Bundles.world_no_bundle Fixture.bundle "secret"
                    eq_refl ltac:(discriminate) eq_refl ltac:(discriminate))).
    reflexivity.
  - apply (proj1 (proj2 (@getPrivateKey_bundle_failures Bundles.forge
                    Bundles.world_not_der Fixture.bundle "secret"
                    eq_refl ltac:(discriminate) eq_refl ltac:(discriminate)))
             [x00; x01]); reflexivity.
  - apply (proj2 (proj2 (@getPrivateKey_bundle_failures Bundles.forge
                    Bundles.world_wrong_password Fixture.bundle "guess"
                    eq_refl ltac:(discriminate) eq_refl ltac:(discriminate)))
             [x30; x01; x00] [48; 1; 0]); reflexivity.
Defined.

Lemma getPrivateKey_first_match_witness :
  @getPrivateKey Bundles.forge Bundles.world_two_keys
  = (Return (Some 5%nat), log_event (EvRead Fixture.bundle) Bundles.world_two_keys).
Proof.
  apply (@getPrivateKey_first_match Bundles.forge Bundles.world_two_keys
           Fixture.bundle "secret" [x30; x04; x00] [48; 4; 0]
           [ {| pkcs12.encrypted := true;
                pkcs12.safeBags := [Fixture.other_bag; Bundles.second_key_bag] |};
             {| pkcs12.encrypted := true;
                pkcs12.safeBags := [Fixture.signing_bag] |} ]
           [Fixture.other_bag] [Fixture.signing_bag] Bundles.second_key_bag);
    try reflexivity; try discriminate.
  repeat constructor.
Defined.

Lemma signer_keyless_first_bag_witness :
  fst (@getPrivateKey Bundles.forge Bundles.world_cert_first) = Return None
  /\ fst (@signer Bundles.forge Fixture.artifact Bundles.world_cert_first)
     = Throw (TypeError "Cannot read property 'sign' of undefined")
  /\ files (snd (@signer Bundles.forge Fixture.artifact Bundles.world_cert_first))
     = files Bundles.world_cert_first.
Proof.
  apply (@signer_keyless_first_bag Bundles.forge Bundles.world_cert_first
           Fixture.artifact Fixture.bundle "secret" [x30; x03; x00] [48; 3; 0]
           [ {| pkcs12.encrypted := true; pkcs12.safeBags := [Bundles.cert_bag] |};
             {| pkcs12.encrypted := true;
                pkcs12.safeBags := [Fixture.signing_bag] |} ]
           [] [Fixture.signing_bag] Bundles.cert_bag);
    try reflexivity; try discriminate.
  - constructor.
  - exists [x01; x02; x03]. reflexivity.
Defined.


Lemma sigOutPath_trailing_separator_witness :
  sigOutPath ("/a/b/artifact.bin" +:+ "/") = sigOutPath "/a/b/artifact.bin".
Proof. apply (sigOutPath_trailing_separator "/a/b/artifact.bin"). discriminate. Defined.
